(** * archlog: the identity resolver and the changelog assembler

    A shallow embedding of the latest revision of archlog (version 0.5,
    one Go file) and the properties of its specification.

    - [GoStrings]: Go strings are byte sequences, modelled by [string];
      [int] and [rune] are [Z].  The functions of [strings] and
      [unicode/utf8] the program calls are defined on them.
    - [result], [State], [M]: a Go call returns, panics or ends the
      process; the global nick cache, standard output and the list of
      URLs requested so far are threaded through a state monad.
    - [World] and [Library]: the pages, the svn subprocess, the memory
      the runtime can get, the XML decoder, the Unicode case table and
      the scanner are inputs.  [GoScanner] is Go's [text/scanner].
    - [Archlog]: the functions of the program, under their names.
    - [Spec]: the notions the specification is stated with.
    - Then the facts, by subsystem: nickname derivation, email
      normalization, the resolver (termination, caching, order of the
      sources, failures of a fetch), the assembler. *)

From Stdlib Require Import ZArith Ascii String List Lia Bool DecimalString.
From stdpp Require Import base option gmap strings list.
Import ListNotations.

Local Open Scope string_scope.
Local Open Scope Z_scope.

(** ** Go's [unicode/utf8] and [strings] packages, as far as the program uses them *)

Module GoStrings.

Definition byte_val (c : ascii) : Z := Z.of_N (N_of_ascii c).
Definition byte_of (z : Z) : ascii := ascii_of_N (Z.to_N z).

Definition len (s : string) : Z := Z.of_nat (String.length s).

Definition RuneError : Z := 65533.
Definition RuneSelf : Z := 128.

Definition in_range (lo hi : Z) (c : ascii) : bool :=
  (lo <=? byte_val c) && (byte_val c <=? hi).

Definition low6 (c : ascii) : Z := Z.land (byte_val c) 63.

(** [utf8.DecodeRuneInString]: the first rune of [s] and its width in
    bytes; an invalid or short encoding gives [(RuneError, 1)], the empty
    string [(RuneError, 0)]. *)
Definition DecodeRuneInString (s : string) : Z * nat :=
  match s with
  | EmptyString => (RuneError, 0%nat)
  | String b0 r =>
    let x := byte_val b0 in
    if x <? RuneSelf then (x, 1%nat)
    else if (194 <=? x) && (x <=? 223) then
      match r with
      | String b1 _ =>
        if in_range 128 191 b1
        then (Z.lor (Z.shiftl (Z.land x 31) 6) (low6 b1), 2%nat)
        else (RuneError, 1%nat)
      | _ => (RuneError, 1%nat)
      end
    else if (224 <=? x) && (x <=? 239) then
      let lo := if x =? 224 then 160 else 128 in
      let hi := if x =? 237 then 159 else 191 in
      match r with
      | String b1 (String b2 _) =>
        if in_range lo hi b1 && in_range 128 191 b2
        then (Z.lor (Z.lor (Z.shiftl (Z.land x 15) 12) (Z.shiftl (low6 b1) 6))
                    (low6 b2), 3%nat)
        else (RuneError, 1%nat)
      | _ => (RuneError, 1%nat)
      end
    else if (240 <=? x) && (x <=? 244) then
      let lo := if x =? 240 then 144 else 128 in
      let hi := if x =? 244 then 143 else 191 in
      match r with
      | String b1 (String b2 (String b3 _)) =>
        if in_range lo hi b1 && in_range 128 191 b2 && in_range 128 191 b3
        then (Z.lor (Z.lor (Z.lor (Z.shiftl (Z.land x 7) 18)
                                  (Z.shiftl (low6 b1) 12))
                           (Z.shiftl (low6 b2) 6))
                    (low6 b3), 4%nat)
        else (RuneError, 1%nat)
      | _ => (RuneError, 1%nat)
      end
    else (RuneError, 1%nat)
  end.

Definition cont_byte (z : Z) : ascii := byte_of (Z.lor 128 (Z.land z 63)).

(** [utf8.EncodeRune], as a string; this is also the conversion
    [string(r)] of an integer to a string. *)
Definition EncodeRune (r : Z) : string :=
  if (0 <=? r) && (r <? 128) then String (byte_of r) ""
  else if (0 <=? r) && (r <? 2048) then
    String (byte_of (Z.lor 192 (Z.shiftr r 6))) (String (cont_byte r) "")
  else if (r <? 0) || (1114111 <? r) || ((55296 <=? r) && (r <=? 57343)) then
    String (byte_of 239) (String (byte_of 191) (String (byte_of 189) ""))
  else if r <? 65536 then
    String (byte_of (Z.lor 224 (Z.shiftr r 12)))
      (String (cont_byte (Z.shiftr r 6)) (String (cont_byte r) ""))
  else
    String (byte_of (Z.lor 240 (Z.shiftr r 18)))
      (String (cont_byte (Z.shiftr r 12))
         (String (cont_byte (Z.shiftr r 6)) (String (cont_byte r) ""))).

(** The loops below walk the string byte by byte; [skip] counts the
    bytes still covered by the rune or the match found last. *)

Fixpoint RuneCount_aux (s : string) (skip : nat) : Z :=
  match s with
  | EmptyString => 0
  | String _ s' =>
    match skip with
    | S k => RuneCount_aux s' k
    | O => 1 + RuneCount_aux s' (snd (DecodeRuneInString s) - 1)
    end
  end.

Definition RuneCountInString (s : string) : Z := RuneCount_aux s 0.

Fixpoint Index_from (s sep : string) (i : Z) : Z :=
  if String.prefix sep s then i
  else match s with
       | EmptyString => -1
       | String _ s' => Index_from s' sep (i + 1)
       end.

(** [strings.Index]: the byte offset of the first [sep] in [s], or -1. *)
Definition Index (s sep : string) : Z := Index_from s sep 0.

Fixpoint LastIndex_from (s sep : string) (i last : Z) : Z :=
  let last' := if String.prefix sep s then i else last in
  match s with
  | EmptyString => last'
  | String _ s' => LastIndex_from s' sep (i + 1) last'
  end.

(** [strings.LastIndex]: the byte offset of the last [sep] in [s], or -1. *)
Definition LastIndex (s sep : string) : Z := LastIndex_from s sep 0 (-1).

Definition Contains (s substr : string) : bool := 0 <=? Index s substr.

Fixpoint Count_aux (s sep : string) (skip : nat) : Z :=
  match s with
  | EmptyString => 0
  | String _ s' =>
    match skip with
    | S k => Count_aux s' sep k
    | O => if String.prefix sep s
           then 1 + Count_aux s' sep (String.length sep - 1)
           else Count_aux s' sep 0
    end
  end.

(** [strings.Count]: the number of non-overlapping instances of [sep]. *)
Definition Count (s sep : string) : Z :=
  match sep with
  | EmptyString => RuneCountInString s + 1
  | _ => Count_aux s sep 0
  end.

Fixpoint Replace_aux (s old new : string) (skip : nat) (n : Z) : string :=
  match s with
  | EmptyString => ""
  | String c s' =>
    match skip with
    | S k => Replace_aux s' old new k n
    | O => if n =? 0 then s
           else if String.prefix old s
                then new +:+ Replace_aux s' old new (String.length old - 1) (n - 1)
                else String c (Replace_aux s' old new 0 n)
    end
  end.

(** [strings.Replace] for a non-empty [old], which is what every call of
    the program passes: the first [n] non-overlapping instances of [old]
    are replaced, all of them when [n < 0]. *)
Definition Replace (s old new : string) (n : Z) : string :=
  Replace_aux s old new 0 n.

Fixpoint Split_aux (s sep : string) (skip : nat) : list string :=
  match s with
  | EmptyString => [""]
  | String c s' =>
    match skip with
    | S k => Split_aux s' sep k
    | O => if String.prefix sep s
           then "" :: Split_aux s' sep (String.length sep - 1)
           else match Split_aux s' sep 0 with
                | p :: ps => String c p :: ps
                | [] => [String c ""]
                end
    end
  end.

(** [strings.Split], and [strings.SplitN] with a negative count, for a
    non-empty separator: the pieces of [s] between the instances of
    [sep]; there is always at least one piece. *)
Definition Split (s sep : string) : list string := Split_aux s sep 0.

Fixpoint Map_aux (mapping : Z -> Z) (s : string) (skip : nat) : string :=
  match s with
  | EmptyString => ""
  | String _ s' =>
    match skip with
    | S k => Map_aux mapping s' k
    | O => let '(c, size) := DecodeRuneInString s in
           let r := mapping c in
           (if 0 <=? r then EncodeRune r else "")
             +:+ Map_aux mapping s' (size - 1)
    end
  end.

(** [strings.Map]: every rune of [s] is replaced by its image, and
    dropped when the image is negative. *)
Definition Map (mapping : Z -> Z) (s : string) : string := Map_aux mapping s 0.

(** [s[a:b]]: [None] stands for the panic "slice bounds out of range". *)
Definition slice (s : string) (a b : Z) : option string :=
  if (0 <=? a) && (a <=? b) && (b <=? len s)
  then Some (String.substring (Z.to_nat a) (Z.to_nat (b - a)) s)
  else None.

(** [s[i]]: [None] stands for the panic "index out of range". *)
Definition byte_at (s : string) (i : Z) : option Z :=
  if (0 <=? i) then byte_val <$> String.get (Z.to_nat i) s else None.

(** [unicode.IsSpace]. *)
Definition IsSpace (r : Z) : bool :=
  ((9 <=? r) && (r <=? 13)) || (r =? 32) || (r =? 133) || (r =? 160)
  || (r =? 5760) || ((8192 <=? r) && (r <=? 8202)) || (r =? 8232)
  || (r =? 8233) || (r =? 8239) || (r =? 8287) || (r =? 12288).

Fixpoint TrimLeftSpace (s : string) (skip : nat) : string :=
  match s with
  | EmptyString => ""
  | String _ s' =>
    match skip with
    | S k => TrimLeftSpace s' k
    | O => let '(r, size) := DecodeRuneInString s in
           if IsSpace r then TrimLeftSpace s' (size - 1) else s
    end
  end.

Definition RuneStart (c : ascii) : bool :=
  negb (Z.land (byte_val c) 192 =? 128).

(** The start offset of the last rune: one to three bytes back from the
    last byte, stopping at the first byte that can start a rune. *)
Fixpoint last_start (rev_bytes : list ascii) (budget : nat) (start : Z) : Z :=
  match budget, rev_bytes with
  | S k, c :: rest => if RuneStart c then start else last_start rest k (start - 1)
  | _, _ => start
  end.

(** [utf8.DecodeLastRuneInString]. *)
Definition DecodeLastRuneInString (s : string) : Z * nat :=
  match rev (list_ascii_of_string s) with
  | [] => (RuneError, 0%nat)
  | c :: rest =>
    if byte_val c <? RuneSelf then (byte_val c, 1%nat)
    else
      let end_ := len s in
      let start := Z.max 0 (last_start rest 3 (end_ - 2)) in
      let start := if start <? end_ - 4 then end_ - 4 else start in
      let start := Z.max 0 start in
      let '(r, size) :=
        DecodeRuneInString (String.substring (Z.to_nat start) (Z.to_nat (end_ - start)) s) in
      if start + Z.of_nat size =? end_ then (r, size) else (RuneError, 1%nat)
  end.

Fixpoint TrimRightSpace (fuel : nat) (s : string) : string :=
  match fuel with
  | O => s
  | S f =>
    match s with
    | EmptyString => ""
    | _ => let '(r, size) := DecodeLastRuneInString s in
           if IsSpace r
           then TrimRightSpace f (String.substring 0 (String.length s - size) s)
           else s
    end
  end.

(** [strings.TrimSpace]. *)
Definition TrimSpace (s : string) : string :=
  let l := TrimLeftSpace s 0 in TrimRightSpace (String.length l) l.

Definition asciiLower (r : Z) : Z :=
  if (65 <=? r) && (r <=? 90) then r + 32 else r.

Section ToLower.
(** [unicode.ToLower] on the code points above U+007F is a table of the
    Go library; it is a parameter here. *)
Variable unicode_ToLower : Z -> Z.

Definition lowerRune (r : Z) : Z :=
  if r <? RuneSelf then asciiLower r else unicode_ToLower r.

(** [strings.ToLower]. *)
Definition ToLower (s : string) : string := Map lowerRune s.
End ToLower.

(** [s[n:]] for [n] within the string. *)
Fixpoint drop (n : nat) (s : string) : string :=
  match n, s with
  | S k, String _ s' => drop k s'
  | _, _ => s
  end.

(** Go's [==] on strings. *)
Definition eqs (a b : string) : bool := String.eqb a b.

End GoStrings.

(** ** Results, the process state and the outside world *)

(** What a Go call can do: return, panic, or end the process with
    [os.Exit].  A fatal error of the runtime (out of memory) is counted
    with the panics: the program recovers from neither, and both end the
    process with status 2.  [OutOfFuel] is the model's own: the token
    loops run on a step budget, and [listBoxLoop_terminates] and
    [emailLoop_terminates] show that it is never used up. *)
Inductive result (A : Type) : Type :=
| Val (a : A)
| Panicked (msg : string)
| Exited (code : Z)
| OutOfFuel.
Arguments Val {A} a.
Arguments Panicked {A} msg.
Arguments Exited {A} code.
Arguments OutOfFuel {A}.

Definition rbind {A B : Type} (r : result A) (f : A -> result B) : result B :=
  match r with
  | Val a => f a
  | Panicked msg => Panicked msg
  | Exited code => Exited code
  | OutOfFuel => OutOfFuel
  end.

(** A Go [error]: [None] is [nil], [Some msg] an error with that text. *)
Definition error : Type := option string.

Definition index_out_of_range : string := "runtime error: index out of range".
Definition slice_out_of_range : string := "runtime error: slice bounds out of range".
Definition nil_dereference : string :=
  "runtime error: invalid memory address or nil pointer dereference".

(** [l[i]] on a slice of strings. *)
Definition index (l : list string) (i : Z) : result string :=
  if i <? 0 then Panicked index_out_of_range
  else match nth_error l (Z.to_nat i) with
       | Some x => Val x
       | None => Panicked index_out_of_range
       end.

(** Used when parsing svn log xml. *)
Record LogEntry : Type := {
  Revision : string;
  Author : string;
  Date : string;
  Msg : string
}.

(** The field [LogEntry []LogEntry] of the source is [Entries] here. *)
Record LogEntries : Type := { Entries : list LogEntry }.

(** The process state: the global [nickCache] ([None] is the nil map),
    what was written to standard output, and the URLs requested so far
    (oldest first), which is how remote I/O is observed. *)
Record State : Type := {
  nickCache : option (gmap string string);
  stdout : string;
  requests : list string
}.

Definition M (A : Type) : Type := State -> result A * State.

Definition ret {A : Type} (a : A) : M A := fun s => (Val a, s).
Definition bind {A B : Type} (m : M A) (f : A -> M B) : M B :=
  fun s => match m s with
           | (Val a, s') => f a s'
           | (Panicked msg, s') => (Panicked msg, s')
           | (Exited code, s') => (Exited code, s')
           | (OutOfFuel, s') => (OutOfFuel, s')
           end.
Definition lift {A : Type} (r : result A) : M A := fun s => (r, s).
Definition panic {A : Type} (msg : string) : M A := lift (Panicked msg).

Declare Scope go_scope.
Delimit Scope go_scope with go.
Notation "x <- m ;; k" := (bind m (fun x => k))
  (at level 100, m at next level, right associativity) : go_scope.
Notation "m ;;; k" := (bind m (fun _ => k))
  (at level 100, right associativity) : go_scope.

(** What [client.Get(url)] followed by reading the body gives: the
    request fails, or a body arrives, whole or cut short by a read
    error. *)
Inductive response : Type :=
| NetError (msg : string)
| Page (body : string) (read_err : error).

(** The outside world: the answer to the [k]-th request of the process
    ([k] counts from 0) as a function of [k] and the URL, what running
    [/usr/bin/svn] with given arguments prints and returns, and the
    largest capacity of a slice of strings for which the operating system
    gives the runtime the memory. *)
Record World : Type := {
  http_get : nat -> string -> response;
  svn : list string -> string * error;
  memory : Z
}.

Definition EOF : Z := -1.

(** The parts of the Go library the program is linked against and that
    are not modelled in full: the case table of [unicode.ToLower] above
    U+007F, [xml.Unmarshal] into a [LogEntries], and the
    [text/scanner.Scanner] interface ([Init], [Next], [TokenText]).  A
    scanner reads a finite body: [unread] bounds the characters left,
    and every [Next] that does not report [EOF] consumes one. *)
Class Library : Type := {
  unicode_ToLower : Z -> Z;
  xml_Unmarshal : string -> LogEntries * error;
  Scanner : Type;
  Scanner_Init : string -> Scanner;
  Scanner_Next : Scanner -> Z * Scanner;
  Scanner_TokenText : Scanner -> string;
  unread : Scanner -> nat;
  Next_unread : forall t : Scanner,
    fst (Scanner_Next t) <> EOF -> (unread (snd (Scanner_Next t)) < unread t)%nat
}.

Local Open Scope go_scope.

(** ** The program *)

Module Archlog.
Import GoStrings.

Definition TU_URL : string := "http://www.archlinux.org/trustedusers/".
Definition DEV_URL : string := "http://www.archlinux.org/developers/".
Definition FEL_URL : string := "http://www.archlinux.org/fellows/".
Definition PKG_URL : string := "http://www.archlinux.org/packages/".

(** The one-character strings the source writes with escapes. *)
Definition LF : string := String "010"%char "".
Definition DQUOTE : string := String "034"%char "".

(** [fmt.Sprintf("%s <%s>", name, email)] *)
Definition nameAndEmail (name email : string) : string :=
  name +:+ " <" +:+ email +:+ ">".

(** [fmt.Println(x)] *)
Definition Println (x : string) : M unit :=
  fun s => (Val tt, {| nickCache := nickCache s;
                       stdout := stdout s +:+ x +:+ LF;
                       requests := requests s |}).

(** [fmt.Printf] of an already formatted text. *)
Definition Printf (x : string) : M unit :=
  fun s => (Val tt, {| nickCache := nickCache s;
                       stdout := stdout s +:+ x;
                       requests := requests s |}).

(** Make a date from the xml version of svn log somewhat prettier. *)
Definition prettyDate (date : string) : result string :=
  index (Split date "T") 0.

(** [mapRunes]: the transliteration table. *)
Definition mapRunes (letter : Z) : Z :=
  if ((65 <=? letter) && (letter <=? 90)) || ((97 <=? letter) && (letter <=? 122))
  then letter
  else if (letter =? 248) || (letter =? 246) then 111        (* 'ø', 'ö' -> 'o' *)
  else if (letter =? 1056) || (letter =? 240) then 114       (* 'Р', 'ð' -> 'r' *)
  else if (letter =? 228) || (letter =? 193) || (letter =? 225) then 97
                                                             (* 'ä', 'Á', 'á' -> 'a' *)
  else if letter =? 233 then 101                             (* 'é' -> 'e' *)
  else 95.                                                   (* '_' *)

(** If there's no "@" in the email, replace the first "." with "@":
    the form in [nickToNameAndEmailWithUrl], which asks for one ".". *)
Definition emailOfTag (email : string) : string :=
  if negb (Contains email "@") && Contains email "."
  then Replace email "." "@" 1
  else email.

(** The same step in [nameToEmailWithUrl], which asks for more than one
    ".". *)
Definition emailOfLabel (email : string) : string :=
  if Index email "@" =? -1
  then if 1 <? Count email "." then Replace email "." "@" 1 else email
  else email.

(** The variables of the tag loop of [nickToNameAndEmailWithUrl]. *)
Record TagScan : Type := {
  name : string;
  email : string;
  counter : Z;
  email_index : Z;
  found : bool
}.

Definition countDown (st : TagScan) : TagScan :=
  {| name := name st; email := email st; counter := counter st - 1;
     email_index := email_index st; found := found st |}.

(** One round of the tag loop at index [i]; the boolean is [true] when
    the round ends in [break]. *)
Definition scanTag (nick : string) (i : Z) (tag : string) (st : TagScan)
  : result (TagScan * bool) :=
  let st :=
    if Contains tag "schema.org/Person"
    then {| name := ""; email := ""; counter := 30; (* Examine the next 30 tags *)
            email_index := email_index st; found := found st |}
    else st in
  if 0 <? counter st then
    if Contains tag ("itemprop=" +:+ DQUOTE +:+ "name")
       && negb (Contains tag "Arch Linux") then
      rbind (index (Split tag DQUOTE) 3) (fun n =>
      Val (countDown {| name := n; email := email st; counter := counter st;
                        email_index := email_index st; found := found st |}, false))
    else if Contains tag nick then
      Val (countDown {| name := name st; email := email st; counter := counter st;
                        email_index := email_index st; found := true |}, false)
    else if Contains tag "Email" then
      Val (countDown {| name := name st; email := email st; counter := counter st;
                        email_index := i + 2; found := found st |}, false)
    else if i =? email_index st then
      rbind (index (Split tag ">") 1) (fun e =>
      let st' := {| name := name st; email := emailOfTag e; counter := counter st;
                    email_index := email_index st; found := found st |} in
      if found st then Val (st', true) else Val (countDown st', false))
    else Val (countDown st, false)
  else Val (st, false).

Fixpoint scanTags (nick : string) (tags : list string) (i : Z) (st : TagScan)
  : result TagScan :=
  match tags with
  | [] => Val st
  | tag :: rest =>
    rbind (scanTag nick i tag st) (fun r =>
    if snd r then Val (fst r) else scanTags nick rest (i + 1) (fst r))
  end.

Definition tokerror : error := Some "Out of tokens".

(** The formatting of one trimmed, non-empty message in [outputLog]. *)
Definition leadStar : string := "    * ".

Definition formatMsg (msg : string) : string :=
  let msg := leadStar +:+ msg in
  (* Where there is one blank line, remove it *)
  let msg := if Count msg (LF +:+ LF) =? 1
             then Replace msg (LF +:+ LF) LF 1 else msg in
  (* If there are newlines in the msg, indent them *)
  Replace msg LF (LF +:+ "      ") (-1).

(** Output in reverse order: [msgitems[last-i]] for [i] over the indices. *)
Definition reversed (msgitems : list string) : list string :=
  let last := (Z.of_nat (List.length msgitems) - 1)%Z in
  List.map (fun i => nth (Z.to_nat (last - Z.of_nat i)) msgitems "")
           (seq 0 (List.length msgitems)).

Fixpoint printAll (lines : list string) : M unit :=
  match lines with
  | [] => ret tt
  | l :: rest => Println l ;;; printAll rest
  end.

(** [fmt.Sprintf("%v", entries)] *)
Definition formatInt (n : Z) : string :=
  NilEmpty.string_of_int (Z.to_int n).

(** Go's [int] on a 64-bit platform. *)
Definition minInt : Z := - 2 ^ 63.
Definition maxInt : Z := 2 ^ 63 - 1.

Definition wrap (z : Z) : Z := (z + 2 ^ 63) mod 2 ^ 64 - 2 ^ 63.

Definition abs (x : Z) : Z :=
  if 0 <=? x then x else wrap (- x).

(** The runtime's [makeslice] for a slice of strings, on linux/amd64: a
    string header takes 16 bytes and an allocation at most [maxAlloc]
    bytes. *)
Definition stringSize : Z := 16.
Definition maxAlloc : Z := 2 ^ 48.
Definition cap_out_of_range : string := "makeslice: cap out of range".
Definition out_of_memory : string := "fatal error: runtime: out of memory".

Section Program.
Context {lib : Library}.
Variable w : World.

(** [client.Get(url)] and the reading of its body; the request is
    recorded. *)
Definition Get (url : string) : M response :=
  fun s => (Val (http_get w (List.length (requests s)) url),
            {| nickCache := nickCache s; stdout := stdout s;
               requests := requests s ++ [url] |}).

(** Get the contents from an URL and return a tokenizer and a
    ReadCloser; both are [None] (nil) when the request fails.  The line
    the source logs to standard error is not modelled. *)
Definition getWebPageTokenizer (url : string) : M (option Scanner * option unit) :=
  resp <- Get url ;;
  match resp with
  | NetError _ => ret (None, None)
  | Page body _ => ret (Some (Scanner_Init body), Some tt)
  end.

(** [defer body.Close()]: a method of a nil interface value. *)
Definition deferClose (body : option unit) : M unit :=
  match body with
  | None => panic nil_dereference
  | Some _ => ret tt
  end.

(** Skip N tokens, if possible. Returns true if it worked out. *)
Fixpoint Skip_loop (tokenizer : Scanner) (n : nat) : bool * Scanner :=
  match n with
  | O => (true, tokenizer)
  | S k =>
    let '(toktype, t') := Scanner_Next tokenizer in
    if toktype =? EOF then (false, t') else Skip_loop t' k
  end.

Definition Skip (tokenizer : Scanner) (n : Z) : bool * Scanner :=
  Skip_loop tokenizer (Z.to_nat n).

(** Generates a nick from the name. *)
Definition generateNick (name : string) : result string :=
  if Index name " " =? -1 then Val name
  else
    rbind
      (* If the english-friendly name is in parenthesis *)
      (if negb (Index name "(" =? -1) && negb (Index name ")" =? -1) then
         let a := Index name "(" in
         let b := LastIndex name ")" in
         match slice name (a + 1) b with
         | Some centerpart => Val (Split centerpart " ")
         | None => Panicked slice_out_of_range
         end
       else Val (Split name " "))
      (fun names =>
    rbind (index names 0) (fun firstname =>
    rbind (index names (Z.of_nat (List.length names) - 1)) (fun lastname =>
    match byte_at firstname 0 with
    | None => Panicked index_out_of_range
    | Some first =>
      Val (Replace (ToLower unicode_ToLower
                      (Map mapRunes (EncodeRune first +:+ lastname)))
                   "_" "" (-1))
    end))).

(** Find the name and email based on a nick name and an URL to an
    ArchLinux related list of people, formatted in a particular way. *)
Definition nickToNameAndEmailWithUrl (nick url : string) : M (string * error) :=
  resp <- Get url ;;
  match resp with
  | NetError msg => ret ("", Some msg)
  | Page _ (Some msg) => ret ("", Some msg)
  | Page b None =>
    st <- lift (scanTags nick (Split b "<") 0
                  {| name := ""; email := ""; counter := 0;
                     email_index := -1; found := false |}) ;;
    if found st
    then ret (nameAndEmail (name st) (email st), None)
    else ret ("", Some "Could not find nick")
  end.

(** The [for] loop of [nickToNameFromListBox]. *)
Fixpoint listBoxLoop (nick : string) (fuel : nat) (tokenizer : Scanner)
  : result (string * error) :=
  match fuel with
  | O => OutOfFuel
  | S fuel' =>
    let '(ok, t1) := Skip tokenizer 1 in
    if negb ok then Val ("", tokerror)
    else
      let tagname := Scanner_TokenText t1 in
      if eqs tagname "option" then
        (* Find Nick *)
        let foundnick := Scanner_TokenText t1 in
        if negb (eqs nick foundnick) then listBoxLoop nick fuel' t1
        else
          let '(ok, t2) := Skip t1 1 in
          if negb ok then Val ("", tokerror)
          else Val (Scanner_TokenText t2, None)
      else listBoxLoop nick fuel' t1
  end.

(** Find the name from an ArchLinux related list of people and nicks. *)
Definition nickToNameFromListBox (nick url : string) : M (string * error) :=
  tb <- getWebPageTokenizer url ;;
  deferClose (snd tb) ;;;
  match fst tb with
  | None => panic nil_dereference
  | Some tokenizer => lift (listBoxLoop nick (S (unread tokenizer)) tokenizer)
  end.

(** [text := ""; for text != label { if !Skip(tokenizer, 1) { return };
    text = tokenizer.TokenText() }]: [None] when the tokens ran out. *)
Fixpoint seekLoop (label text : string) (fuel : nat) (tokenizer : Scanner)
  : result (option Scanner) :=
  if eqs text label then Val (Some tokenizer)
  else match fuel with
       | O => OutOfFuel
       | S fuel' =>
         let '(ok, t1) := Skip tokenizer 1 in
         if negb ok then Val None
         else seekLoop label (Scanner_TokenText t1) fuel' t1
       end.

Definition seek (label : string) (tokenizer : Scanner) : result (option Scanner) :=
  seekLoop label "" (S (unread tokenizer)) tokenizer.

(** A label loop followed by [Skip(tokenizer, 4)]. *)
Definition seekValue (label : string) (tokenizer : Scanner) : result (option Scanner) :=
  rbind (seek label tokenizer) (fun r =>
  match r with
  | None => Val None
  | Some t1 => let '(ok, t2) := Skip t1 4 in
               if negb ok then Val None else Val (Some t2)
  end).

(** The [for] loop of [nameToEmailWithUrl]. *)
Fixpoint emailLoop (fullname : string) (fuel : nat) (tokenizer : Scanner)
  : result (string * error) :=
  match fuel with
  | O => OutOfFuel
  | S fuel' =>
    let '(ok, t1) := Skip tokenizer 1 in
    if negb ok then Val ("", tokerror)
    else
      let tagname := Scanner_TokenText t1 in
      if eqs tagname "a" then
        (* Find Name *)
        rbind (seekValue "Name:" t1) (fun r =>
        match r with
        | None => Val ("", tokerror)
        | Some t2 =>
          let name := Scanner_TokenText t2 in
          (* Check if this is the one we're looking for or skip *)
          if negb (eqs (ToLower unicode_ToLower name) (ToLower unicode_ToLower fullname))
          then emailLoop fullname fuel' t2
          else
            (* Find Alias *)
            rbind (seekValue "Alias:" t2) (fun r =>
            match r with
            | None => Val ("", tokerror)
            | Some t3 =>
              (* Find Email *)
              rbind (seekValue "Email:" t3) (fun r =>
              match r with
              | None => Val ("", tokerror)
              | Some t4 => Val (emailOfLabel (Scanner_TokenText t4), None)
              end)
            end)
        end)
      else emailLoop fullname fuel' t1
  end.

(** Find the email based on a name and an URL to an ArchLinux related
    list of people, formatted in a particular way. *)
Definition nameToEmailWithUrl (fullname url : string) : M (string * error) :=
  tb <- getWebPageTokenizer url ;;
  deferClose (snd tb) ;;;
  match fst tb with
  | None => panic nil_dereference
  | Some tokenizer => lift (emailLoop fullname (S (unread tokenizer)) tokenizer)
  end.

(** The accesses to the global [nickCache]. *)
Definition makeCache : M unit :=
  fun s => match nickCache s with
           | None => (Val tt, {| nickCache := Some ∅; stdout := stdout s;
                                 requests := requests s |})
           | Some _ => (Val tt, s)
           end.

(** [for key, value := range nickCache { if key == nick { return value } }] *)
Definition lookupCache (nick : string) : M (option string) :=
  fun s => (Val (nickCache s ≫= fun cache => cache !! nick), s).

(** [nickCache[nick] = value] *)
Definition storeCache (nick value : string) : M unit :=
  fun s => match nickCache s with
           | None => (Panicked "assignment to entry in nil map", s)
           | Some cache => (Val tt, {| nickCache := Some (<[nick := value]> cache);
                                       stdout := stdout s;
                                       requests := requests s |})
           end.

Definition nickToNameAndEmail (nick : string) : M string :=
  makeCache ;;;
  hit <- lookupCache nick ;;
  match hit with
  | Some value => ret value
  | None =>
    (* Try searching on the trusted user webpage *)
    r <- nickToNameAndEmailWithUrl nick TU_URL ;;
    match snd r with
    | None => storeCache nick (fst r) ;;; ret (fst r)
    | Some _ =>
      (* Try searching on the developer webpage *)
      r <- nickToNameAndEmailWithUrl nick DEV_URL ;;
      match snd r with
      | None => storeCache nick (fst r) ;;; ret (fst r)
      | Some _ =>
        (* Try searching the package search webpage *)
        r <- nickToNameFromListBox nick PKG_URL ;;
        match snd r with
        | None =>
          (* Found it, try to find the mail too *)
          let name := fst r in
          r <- nameToEmailWithUrl name TU_URL ;;
          fe <- match snd r with
                | None => ret (true, fst r)
                | Some _ =>
                  r <- nameToEmailWithUrl name DEV_URL ;;
                  match snd r with
                  | None => ret (true, fst r)
                  | Some _ => ret (false, fst r)
                  end
                end ;;
          let name := if fst fe then nameAndEmail name (snd fe) else name in
          storeCache nick name ;;; ret name
        | Some _ =>
          (* Try searching on the fellows webpage *)
          r <- nickToNameAndEmailWithUrl nick FEL_URL ;;
          match snd r with
          | None => storeCache nick (fst r) ;;; ret (fst r)
          | Some _ =>
            (* Could not get name and email from nick *)
            storeCache nick nick ;;; ret nick
          end
        end
      end
    end
  end.

(** Get the svn log xml output as an array of bytes. *)
Definition getSvnLogXMLbytes (entries : Z) : string * error :=
  let args :=
    if entries =? -1
    then ["log"; "--xml"; "-r"; "HEAD:0"]
    else ["log"; "--xml"; "-r"; "HEAD:0"; "--limit"; formatInt entries] in
  let '(b, err) := svn w args in
  match err with
  | Some e => ("", Some e)
  | None => (b, None)
  end.

(** Use the "svn log --xml" command to fetch log entries.  The error of
    [getSvnLogXMLbytes] is overwritten by that of [xml.Unmarshal]. *)
Definition getSvnLog (entries : Z) : M (LogEntries * error) :=
  let '(xmlbytes, _) := getSvnLogXMLbytes entries in
  let '(result, err) := xml_Unmarshal xmlbytes in
  match err with
  | Some e => Printf ("error: " +:+ e) ;;; ret ({| Entries := [] |}, None)
  | None => ret (result, None)
  end.

(** The variables of [outputLog] that live across the rounds of its
    loop. *)
Record Gather : Type := {
  first : bool;
  msgitems : list string;
  prevdate : string;
  prevname : string;
  prevheader : string
}.

(** One round of the loop of [outputLog]. *)
Definition outputEntry (logentry : LogEntry) (g : Gather) : M Gather :=
  date <- lift (prettyDate (Date logentry)) ;;
  name <- nickToNameAndEmail (Author logentry) ;;
  let msg := TrimSpace (Msg logentry) in
  let header := date +:+ " " +:+ name in
  if eqs msg "" then ret g (* Skip empty messages *)
  else
    let msg := formatMsg msg in
    (* Only output a header if it's not the same date again, or not the same name *)
    g1 <- (if negb (eqs date (prevdate g)) || negb (eqs name (prevname g)) then
             (* Output gathered messages *)
             if 0 <? Z.of_nat (List.length (msgitems g)) then
               printAll (reversed (msgitems g)) ;;;
               (* Clear the gathered messages *)
               ret {| first := false; msgitems := []; prevdate := prevdate g;
                      prevname := prevname g; prevheader := prevheader g |}
             else ret g
           else ret g) ;;
    (* Output a new header if it changes *)
    (if negb (first g1) && negb (eqs header (prevheader g1))
     then Println (LF +:+ header)
     else if first g1 && negb (eqs header (prevheader g1))
          then Println header
          else ret tt) ;;;
    (* Gather message *)
    ret {| first := first g1; msgitems := msgitems g1 ++ [msg];
           prevdate := date; prevname := name; prevheader := header |}.

Fixpoint outputEntries (entries : list LogEntry) (g : Gather) : M Gather :=
  match entries with
  | [] => ret g
  | logentry :: rest => g' <- outputEntry logentry g ;; outputEntries rest g'
  end.

(** [make([]string, 0, cap)]: [makeslice] panics when the capacity is
    negative or takes more than [maxAlloc] bytes, and the allocation is a
    fatal error when the memory is not there. *)
Definition makeStrings (cap : Z) : result unit :=
  if (cap <? 0) || (maxAlloc <? stringSize * cap) then Panicked cap_out_of_range
  else if memory w <? cap then Panicked out_of_memory
  else Val tt.

(** Output the N last svn log entries in the style of a ChangeLog.  The
    message written to standard error before [os.Exit(1)] is not
    modelled.  The slice made here is the empty [msgitems] the loop starts
    with. *)
Definition outputLog (n : Z) : M unit :=
  lift (makeStrings (abs n)) ;;;
  r <- getSvnLog n ;;
  match snd r with
  | Some _ => lift (Exited 1)
  | None =>
    g <- outputEntries (Entries (fst r))
           {| first := true; msgitems := []; prevdate := ""; prevname := "";
              prevheader := "" |} ;;
    (* Output any final gathered messages *)
    if 0 <? Z.of_nat (List.length (msgitems g))
    then printAll (reversed (msgitems g)) ;;; Println ""
    else ret tt
  end.

End Program.

(** The exit status of the process when [main] has nothing left to do
    after a call: 0 on return, 2 after a panic. *)
Definition exitStatus {A : Type} (r : result A) : option Z :=
  match r with
  | Val _ => Some 0
  | Panicked _ => Some 2
  | Exited code => Some code
  | OutOfFuel => None
  end.

Definition start : State := {| nickCache := None; stdout := ""; requests := [] |}.

End Archlog.

(** ** Go's [text/scanner], as the program uses it

    The program calls [Init], [Next] and [TokenText] only.  [Next] reads
    one character and discards the token text; only [Scan], which the
    program never calls, collects one. *)

Module GoScanner.
Import GoStrings.

(** [ch] is the look-ahead character (-2: none read yet, -1: end of
    input), [src] the unread bytes, [tokPos] and [tok] the token text
    state. *)
Record Scanner : Type := {
  ch : Z;
  src : string;
  tokPos : Z;
  tok : string
}.

(** [s.next()]: the next character of the source, or [EOF]. *)
Definition next (src : string) : Z * string :=
  match src with
  | EmptyString => (EOF, "")
  | String _ _ => let '(r, size) := DecodeRuneInString src in (r, drop size src)
  end.

Definition Init (body : string) : Scanner :=
  {| ch := -2; src := body; tokPos := -1; tok := "" |}.

(** [Peek] returns [ch] of the state it leaves; a leading byte order
    mark is ignored. *)
Definition Peek (s : Scanner) : Scanner :=
  if ch s =? -2 then
    let '(c, r) := next (src s) in
    if c =? 65279 then
      let '(c2, r2) := next r in
      {| ch := c2; src := r2; tokPos := tokPos s; tok := tok s |}
    else {| ch := c; src := r; tokPos := tokPos s; tok := tok s |}
  else s.

Definition Next (s : Scanner) : Z * Scanner :=
  let s0 := {| ch := ch s; src := src s; tokPos := -1 (* don't collect token text *);
               tok := tok s |} in
  let s1 := Peek s0 in
  if negb (ch s1 =? EOF) then
    let '(c, r) := next (src s1) in
    (ch s1, {| ch := c; src := r; tokPos := tokPos s1; tok := tok s1 |})
  else (ch s1, s1).

Definition TokenText (s : Scanner) : string :=
  if tokPos s <? 0 then "" (* no token text *) else tok s.

Definition unread (s : Scanner) : nat :=
  ((if (ch s =? EOF)%Z then 0 else 1) + String.length (src s))%nat.

End GoScanner.

(** ** The Go scanner meets the interface *)

Module GoScannerFacts.
Import GoStrings GoScanner.

Lemma DecodeRuneInString_size (c : ascii) (s : string) :
  (1 <= snd (DecodeRuneInString (String c s)))%nat.
Proof.
  unfold DecodeRuneInString.
  repeat match goal with
         | |- context [if ?b then _ else _] => destruct b
         | |- context [match ?x with EmptyString => _ | String _ _ => _ end] =>
             destruct x
         end; simpl; lia.
Qed.

Lemma drop_length (n : nat) (s : string) :
  String.length (drop n s) = (String.length s - n)%nat.
Proof.
  revert s; induction n as [|n IH]; intros [|c s]; simpl; auto.
Qed.

Lemma next_shrinks (c : ascii) (s : string) :
  (String.length (snd (next (String c s))) < String.length (String c s))%nat.
Proof.
  unfold next.
  pose proof (DecodeRuneInString_size c s) as Hsize.
  destruct (DecodeRuneInString (String c s)) as [r size]; simpl in *.
  rewrite drop_length; simpl; lia.
Qed.

Lemma next_le (s : string) :
  (String.length (snd (next s)) <= String.length s)%nat.
Proof.
  destruct s as [|c s]; [simpl; lia|].
  pose proof (next_shrinks c s); lia.
Qed.

Lemma Next_consumes (t : Scanner) :
  fst (Next t) <> EOF -> (unread (snd (Next t)) < unread t)%nat.
Proof.
  unfold Next, Peek, unread; simpl.
  destruct (ch t =? -2) eqn:Hch.
  - apply Z.eqb_eq in Hch. rewrite Hch. simpl.
    destruct (src t) as [|c s] eqn:Hsrc; [simpl; intros H; now elim H|].
    pose proof (next_shrinks c s) as H1.
    destruct (next (String c s)) as [c1 r1]; simpl in H1.
    pose proof (next_le r1) as H2.
    destruct (c1 =? 65279).
    + destruct (next r1) as [c2 r2]; simpl in *.
      destruct (c2 =? EOF) eqn:E2; simpl; [intros H; apply Z.eqb_eq in E2; now elim H|].
      intros _. pose proof (next_le r2) as H3.
      destruct (next r2) as [c3 r3]; simpl in *.
      destruct (c3 =? EOF); lia.
    + simpl. destruct (c1 =? EOF) eqn:E1; simpl;
        [intros H; apply Z.eqb_eq in E1; now elim H|].
      intros _. pose proof (next_le r1) as H3.
      destruct (next r1) as [c3 r3]; simpl in *.
      destruct (c3 =? EOF); lia.
  - simpl. destruct (ch t =? EOF) eqn:E; simpl;
      [intros H; apply Z.eqb_eq in E; now elim H|].
    intros _. destruct (src t) as [|c s]; [simpl; lia|].
    pose proof (next_shrinks c s) as H1.
    destruct (next (String c s)) as [c1 r1]; simpl in *.
    destruct (c1 =? EOF); lia.
Qed.

(** After [Init] and after every [Next] there is no token text. *)
Lemma TokenText_Init (body : string) : TokenText (Init body) = "".
Proof. reflexivity. Qed.

Lemma TokenText_Next (t : Scanner) : TokenText (snd (Next t)) = "".
Proof.
  unfold Next, Peek; simpl.
  destruct (ch t =? -2); simpl.
  - destruct (next (src t)) as [c r]. destruct (c =? 65279).
    + destruct (next r) as [c2 r2]; simpl.
      destruct (c2 =? EOF); simpl; [reflexivity|].
      destruct (next r2); reflexivity.
    + simpl. destruct (c =? EOF); simpl; [reflexivity|].
      destruct (next r); reflexivity.
  - destruct (ch t =? EOF); simpl; [reflexivity|].
    destruct (next (src t)); reflexivity.
Qed.

End GoScannerFacts.

(** The library with Go's scanner; the Unicode case table and the XML
    decoder stay parameters. *)
Definition goLibrary (lower : Z -> Z) (unmarshal : string -> LogEntries * error)
  : Library :=
  {| unicode_ToLower := lower;
     xml_Unmarshal := unmarshal;
     Scanner := GoScanner.Scanner;
     Scanner_Init := GoScanner.Init;
     Scanner_Next := GoScanner.Next;
     Scanner_TokenText := GoScanner.TokenText;
     unread := GoScanner.unread;
     Next_unread := GoScannerFacts.Next_consumes |}.

(** ** Notions of the specification *)

Module Spec.
Import GoStrings Archlog.

(** The number of bytes of [s] equal to [c]. *)
Fixpoint count_char (c : ascii) (s : string) : nat :=
  match s with
  | EmptyString => 0%nat
  | String d s' => ((if Ascii.eqb c d then 1 else 0) + count_char c s')%nat
  end.

(** The number of empty lines of [s]: the positions at which a newline
    is followed at once by another newline. *)
Fixpoint blankLines (s : string) : nat :=
  match s with
  | String a (String b _ as s') =>
    ((if Ascii.eqb a "010" && Ascii.eqb b "010" then 1 else 0) + blankLines s')%nat
  | _ => 0%nat
  end.

(** Whether [s] begins with two newlines. *)
Definition headPair (s : string) : bool :=
  match s with
  | String a (String b _) => Ascii.eqb a "010" && Ascii.eqb b "010"
  | _ => false
  end.

(** The resolver as the specification words it: an ordered list of
    sources, each an attempt that yields an identity or nothing; the
    first success wins. *)
Section Cascade.
Context {lib : Library}.
Variable w : World.

Definition Source : Type := string -> M (option string).

(** A page scanned for the handle: Sources A, B and D. *)
Definition structuralScan (url : string) : Source :=
  fun handle =>
    r <- nickToNameAndEmailWithUrl w handle url ;;
    ret (match snd r with None => Some (fst r) | Some _ => None end).

(** A page scanned for the email of a full name: the secondary lookups. *)
Definition emailByFullName (url : string) : Source :=
  fun fullname =>
    r <- nameToEmailWithUrl w fullname url ;;
    ret (match snd r with None => Some (fst r) | Some _ => None end).

Fixpoint firstSuccess (sources : list Source) (key : string) : M (option string) :=
  match sources with
  | [] => ret None
  | source :: rest =>
    r <- source key ;;
    match r with
    | Some display => ret (Some display)
    | None => firstSuccess rest key
    end
  end.

Definition sourceA : Source := structuralScan TU_URL.
Definition sourceB : Source := structuralScan DEV_URL.
Definition sourceD : Source := structuralScan FEL_URL.

(** The package list box: on a match, the bare name, with the email of
    the first secondary lookup that finds one. *)
Definition sourceC : Source :=
  fun handle =>
    r <- nickToNameFromListBox w handle PKG_URL ;;
    match snd r with
    | Some _ => ret None
    | None =>
      let bare := fst r in
      e <- firstSuccess [emailByFullName TU_URL; emailByFullName DEV_URL] bare ;;
      ret (Some (match e with
                 | Some email => nameAndEmail bare email
                 | None => bare
                 end))
    end.

Definition resolve (handle : string) : M string :=
  makeCache ;;;
  hit <- lookupCache handle ;;
  match hit with
  | Some display => ret display
  | None =>
    r <- firstSuccess [sourceA; sourceB; sourceC; sourceD] handle ;;
    let display := default handle r in
    storeCache handle display ;;; ret display
  end.

End Cascade.

(** The state after one more request. *)
Definition sent (s : State) (url : string) : State :=
  {| nickCache := nickCache s; stdout := stdout s; requests := requests s ++ [url] |}.

(** The state after [text] was written to standard output. *)
Definition printed (s : State) (text : string) : State :=
  {| nickCache := nickCache s; stdout := stdout s +:+ text; requests := requests s |}.

(** The text [printAll] writes. *)
Definition lines (l : list string) : string :=
  fold_right (fun x rest => x +:+ LF +:+ rest) "" l.

(** One round of the loop of [outputLog], once the date and the name
    are known: whether the gathered messages are output, the variables
    after the round, and the text the round writes. *)
Definition flushes (date name : string) (g : Gather) : bool :=
  (negb (eqs date (prevdate g)) || negb (eqs name (prevname g)))
  && (0 <? Z.of_nat (List.length (msgitems g))).

Definition roundGather (date name msg : string) (g : Gather) : Gather :=
  if eqs msg "" then g
  else {| first := if flushes date name g then false else first g;
          msgitems := (if flushes date name g then [] else msgitems g)
                        ++ [formatMsg msg];
          prevdate := date; prevname := name;
          prevheader := date +:+ " " +:+ name |}.

Definition roundOutput (date name msg : string) (g : Gather) : string :=
  if eqs msg "" then ""
  else
    (if flushes date name g then lines (reversed (msgitems g)) else "")
    +:+ (if eqs (date +:+ " " +:+ name) (prevheader g) then ""
         else if (if flushes date name g then false else first g)
              then date +:+ " " +:+ name +:+ LF
              else LF +:+ date +:+ " " +:+ name +:+ LF).

(** The cached identity of a handle. *)
Definition cached (s : State) (handle : string) : option string :=
  nickCache s ≫= fun cache => cache !! handle.

(** The state once the cache exists. *)
Definition made (s : State) : State :=
  {| nickCache := Some (default ∅ (nickCache s)); stdout := stdout s;
     requests := requests s |}.

(** The state a call of the resolver leaves: the cache [cache], and
    [urls] requested on top of those of [s]. *)
Definition after (s : State) (cache : gmap string string) (urls : list string)
  : State :=
  {| nickCache := Some cache; stdout := stdout s; requests := requests s ++ urls |}.

(** A call returned or panicked: it neither ended the process nor ran
    out of steps. *)
Definition settled {A : Type} (r : result A) : Prop :=
  match r with
  | Val _ | Panicked _ => True
  | Exited _ | OutOfFuel => False
  end.

(** There is room for the slice [outputLog n] starts with: its capacity
    [abs n] is not negative and stays below the limit of [makeslice], and
    the runtime gets the memory.  Then [outputLog] reaches [getSvnLog]
    and svn is run. *)
Definition roomFor (w : World) (n : Z) : bool :=
  (0 <=? abs n) && (stringSize * abs n <? maxAlloc) && (abs n <=? memory w).

(** The states a process can be in later: it only calls the resolver
    and prints. *)
Inductive later {lib : Library} : State -> State -> Prop :=
| later_now (s : State) : later s s
| later_resolve (w : World) (nick : string) (s s1 s2 : State) (r : result string) :
    later s s1 -> nickToNameAndEmail w nick s1 = (r, s2) -> later s s2
| later_print (s s1 : State) (text : string) :
    later s s1 -> later s (printed s1 text).

(** A computation that neither reads nor writes standard output: it
    runs the same after a print. *)
Definition stdout_blind {A : Type} (m : M A) : Prop :=
  forall (s : State) (text : string),
    m (printed s text) = (fst (m s), printed (snd (m s)) text).

End Spec.

(** ** Sample inputs *)

Module Samples.
Import GoStrings Archlog.

(** A library to run the model with: Go's scanner, code points above
    U+007F left as they are by [unicode_ToLower] (no sample meets one
    there), and an XML decoder that answers every input as Go's answers
    the empty one. *)
Definition plainLibrary : Library :=
  goLibrary (fun r => r) (fun _ => ({| Entries := [] |}, Some "EOF")).

(** Every page is empty and svn prints nothing; as in the other sample
    worlds, the runtime gets the memory for 2^20 strings. *)
Definition emptyPages : World :=
  {| http_get := fun _ _ => Page "" None; svn := fun _ => ("", None);
     memory := 2 ^ 20 |}.

(** As [emptyPages], but the request for the package page fails. *)
Definition packagesDown : World :=
  {| http_get := fun _ url =>
       if String.eqb url PKG_URL then NetError "Get: connection refused"
       else Page "" None;
     svn := fun _ => ("", None); memory := 2 ^ 20 |}.

(** A people page with one person, whose address is written with a dot
    for the "@". *)
Definition personPage : string :=
  "<div itemscope itemtype=" +:+ DQUOTE +:+ "http://schema.org/Person" +:+ DQUOTE
  +:+ "><meta itemprop=" +:+ DQUOTE +:+ "name" +:+ DQUOTE +:+ " content="
  +:+ DQUOTE +:+ "Jane Doe" +:+ DQUOTE
  +:+ "/><td>jdoe</td><th>Email:</th><td>jane.example</td></div>".

Definition onePerson : World :=
  {| http_get := fun _ _ => Page personPage None; svn := fun _ => ("", None);
     memory := 2 ^ 20 |}.

(** A page cut off inside the name attribute of a person. *)
Definition cutPage : string :=
  "<div itemtype=" +:+ DQUOTE +:+ "http://schema.org/Person" +:+ DQUOTE
  +:+ "><meta itemprop=" +:+ DQUOTE +:+ "name".

Definition cutPages : World :=
  {| http_get := fun _ _ => Page cutPage None; svn := fun _ => ("", None);
     memory := 2 ^ 20 |}.

(** The three entries of the grouping example, in the order given. *)
Definition entryA : LogEntry :=
  {| Revision := "1"; Author := "alice"; Date := "2024-01-01"; Msg := "msgA" |}.
Definition entryB : LogEntry :=
  {| Revision := "2"; Author := "alice"; Date := "2024-01-01"; Msg := "msgB" |}.
Definition entryC : LogEntry :=
  {| Revision := "3"; Author := "bob"; Date := "2024-01-02"; Msg := "msgC" |}.
Definition threeEntries : list LogEntry := [entryA; entryB; entryC].

(** A library whose XML decoder yields the three entries. *)
Definition threeEntriesLibrary : Library :=
  goLibrary (fun r => r) (fun _ => ({| Entries := threeEntries |}, None)).

(** A message with two empty lines between its two paragraphs, and a
    log that has this message only. *)
Definition twoBlankLines : string := "fix" +:+ LF +:+ LF +:+ LF +:+ "details".

Definition twoBlankLinesEntry : LogEntry :=
  {| Revision := "1"; Author := "alice"; Date := "2024-01-01T10:00:00.000000Z";
     Msg := twoBlankLines +:+ LF |}.

Definition twoBlankLinesLibrary : Library :=
  goLibrary (fun r => r) (fun _ => ({| Entries := [twoBlankLinesEntry] |}, None)).

End Samples.

(** ** Facts about the string functions *)

Module StringFacts.
Import GoStrings Archlog Spec.

Lemma prefix_char (c d : ascii) (s : string) :
  String.prefix (String c "") (String d s) = Ascii.eqb c d.
Proof.
  simpl. destruct (ascii_dec c d) as [->|Hne].
  - rewrite Ascii.eqb_refl. now destruct s.
  - symmetry. now apply Ascii.eqb_neq.
Qed.

Lemma Index_from_char (c : ascii) (s : string) (i : Z) :
  0 <= i ->
  (count_char c s = 0%nat -> Index_from s (String c "") i = -1) /\
  (count_char c s <> 0%nat -> i <= Index_from s (String c "") i).
Proof.
  revert i; induction s as [|d s IH]; intros i Hi.
  - simpl. split; [reflexivity | intros H; now elim H].
  - cbn [Index_from count_char]. rewrite prefix_char.
    destruct (Ascii.eqb c d).
    + split; [discriminate | lia].
    + simpl Nat.add. destruct (IH (i + 1) ltac:(lia)) as [H0 H1].
      split; [exact H0 | intros H; specialize (H1 H); lia].
Qed.

Lemma Contains_char (c : ascii) (s : string) :
  Contains s (String c "") = negb (Nat.eqb (count_char c s) 0%nat).
Proof.
  unfold Contains, Index.
  destruct (Index_from_char c s 0 ltac:(lia)) as [H0 H1].
  destruct (Nat.eqb_spec (count_char c s) 0%nat) as [E|E]; simpl.
  - now rewrite (H0 E).
  - apply Z.leb_le. auto.
Qed.

Lemma Index_char_none (c : ascii) (s : string) :
  count_char c s = 0%nat <-> Index s (String c "") = -1.
Proof.
  unfold Index. destruct (Index_from_char c s 0 ltac:(lia)) as [H0 H1].
  split; [exact H0|]. intros H.
  destruct (Nat.eq_dec (count_char c s) 0%nat) as [E|E]; [exact E|].
  specialize (H1 E). lia.
Qed.

Lemma Count_char (c : ascii) (s : string) :
  Count s (String c "") = Z.of_nat (count_char c s).
Proof.
  unfold Count. induction s as [|d s IH]; [reflexivity|].
  cbn [Count_aux count_char]. rewrite prefix_char.
  change (String.length (String c "") - 1)%nat with 0%nat.
  rewrite IH. destruct (Ascii.eqb c d); lia.
Qed.

Lemma append_String (c : ascii) (a b : string) :
  String c a +:+ b = String c (a +:+ b).
Proof. reflexivity. Qed.

(** Replacing the first [c]: the text before it has no [c], and only
    that byte changes. *)
Lemma Replace_first_char (c : ascii) (new s : string) :
  count_char c s <> 0%nat ->
  exists pre post : string,
    s = pre +:+ String c post /\ count_char c pre = 0%nat /\
    Replace s (String c "") new 1 = pre +:+ new +:+ post.
Proof.
  unfold Replace. induction s as [|d s IH]; [intros H; now elim H|].
  intros H. cbn [Replace_aux]. rewrite prefix_char.
  change (1 =? 0) with false. cbn iota.
  destruct (Ascii.eqb_spec c d) as [->|Hne].
  - exists "", s. repeat split.
    change (String.length (String d "") - 1)%nat with 0%nat.
    destruct s; reflexivity.
  - cbn [count_char] in H. apply Ascii.eqb_neq in Hne. rewrite Hne in H.
    destruct (IH H) as (pre & post & E1 & E2 & E3).
    exists (String d pre), post. repeat split.
    + now rewrite append_String, <- E1.
    + cbn [count_char]. now rewrite Hne.
    + now rewrite E3.
Qed.

Lemma count_char_append (c : ascii) (a b : string) :
  count_char c (a +:+ b) = (count_char c a + count_char c b)%nat.
Proof. induction a as [|d a IH]; simpl; [reflexivity | rewrite IH; lia]. Qed.

(** [Split] always yields a piece. *)
Lemma Split_aux_nonempty (s sep : string) (skip : nat) : Split_aux s sep skip <> [].
Proof.
  revert skip; induction s as [|c s IH]; intros skip; cbn [Split_aux];
    [discriminate|].
  destruct skip; [|apply IH].
  destruct (String.prefix sep (String c s)); [discriminate|].
  destruct (Split_aux s sep 0); discriminate.
Qed.

Lemma index_first (l : list string) : l <> [] -> exists x, index l 0 = Val x.
Proof. destruct l as [|x l]; [congruence | intros _; now exists x]. Qed.

Lemma index_last (l : list string) :
  l <> [] -> exists x, index l (Z.of_nat (List.length l) - 1) = Val x.
Proof.
  intros Hl. unfold index.
  destruct l as [|y l]; [congruence|].
  assert (Z.of_nat (List.length (y :: l)) - 1 = Z.of_nat (List.length l)) as ->
    by (simpl List.length; lia).
  destruct (Z.ltb_spec (Z.of_nat (List.length l)) 0); [lia|].
  rewrite Nat2Z.id.
  destruct (nth_error (y :: l) (List.length l)) eqn:E; [eauto|].
  apply nth_error_None in E. simpl in E. lia.
Qed.

(** Empty lines and pairs of newlines. *)
Lemma prefix_pair (s : string) : String.prefix (LF +:+ LF) s = headPair s.
Proof.
  change (LF +:+ LF) with (String "010" (String "010" EmptyString)).
  destruct s as [|a [|b s]]; [reflexivity| |].
  - cbn [String.prefix headPair]. now destruct (ascii_dec "010" a).
  - cbn [String.prefix headPair].
    destruct (ascii_dec "010" a) as [<-|Ha].
    + destruct (ascii_dec "010" b) as [<-|Hb].
      * now destruct s.
      * symmetry. apply andb_false_iff. right. apply Ascii.eqb_neq. congruence.
    + symmetry. apply andb_false_iff. left. apply Ascii.eqb_neq. congruence.
Qed.

Lemma blankLines_cons (a : ascii) (s : string) :
  blankLines (String a s)
  = ((if headPair (String a s) then 1 else 0) + blankLines s)%nat.
Proof. destruct s as [|b s]; reflexivity. Qed.

Lemma Count_no_blank (s : string) :
  blankLines s = 0%nat -> Count_aux s (LF +:+ LF) 0 = 0.
Proof.
  induction s as [|a s IH]; [reflexivity|].
  rewrite blankLines_cons. cbn [Count_aux]. rewrite prefix_pair.
  destruct (headPair (String a s)); [discriminate|].
  intros H. apply IH. exact H.
Qed.

Lemma Replace_no_blank (s : string) (n : Z) :
  blankLines s = 0%nat -> Replace_aux s (LF +:+ LF) LF 0 n = s.
Proof.
  induction s as [|a s IH]; [reflexivity|].
  rewrite blankLines_cons. cbn [Replace_aux]. rewrite prefix_pair.
  destruct (headPair (String a s)); [discriminate|].
  intros H. destruct (n =? 0); [reflexivity|]. now rewrite IH.
Qed.

Lemma one_blank_line (s : string) :
  blankLines s = 1%nat ->
  Count s (LF +:+ LF) = 1 /\ blankLines (Replace s (LF +:+ LF) LF 1) = 0%nat.
Proof.
  unfold Replace. change (Count s (LF +:+ LF)) with (Count_aux s (LF +:+ LF) 0).
  induction s as [|a s IH]; [discriminate|].
  rewrite blankLines_cons. cbn [Count_aux Replace_aux]. rewrite prefix_pair.
  change (1 =? 0) with false. cbv iota.
  change (String.length (LF +:+ LF) - 1)%nat with 1%nat.
  destruct (headPair (String a s)) eqn:Hp.
  - intros H. assert (blankLines s = 0%nat) as H0 by lia. clear H.
    destruct s as [|b s]; [discriminate|].
    cbn [headPair] in Hp. apply andb_true_iff in Hp as [Ha Hb].
    apply Ascii.eqb_eq in Ha, Hb. subst a b.
    cbn [Count_aux Replace_aux].
    rewrite blankLines_cons in H0.
    destruct (headPair (String "010" s)) eqn:Hp2; [discriminate|].
    split.
    + rewrite (Count_no_blank s H0). reflexivity.
    + change (1 - 1) with 0.
      assert (Replace_aux s (LF +:+ LF) LF 0 0 = s) as ->
        by (destruct s; reflexivity).
      change (LF +:+ s) with (String "010" s).
      rewrite blankLines_cons, Hp2. exact H0.
  - intros H. cbn [Nat.add] in H. destruct (IH H) as [IH1 IH2].
    split; [exact IH1|].
    rewrite blankLines_cons, IH2.
    destruct s as [|b s]; [discriminate|].
    cbn [Replace_aux] in *. rewrite prefix_pair in *.
    change (1 =? 0) with false in *. cbv iota in *.
    destruct (headPair (String b s)) eqn:Hp3.
    + (* the pair starts at b: a is not a newline followed by... *)
      destruct s as [|c s]; [discriminate|].
      cbn [headPair] in Hp3. apply andb_true_iff in Hp3 as [Hb Hc].
      apply Ascii.eqb_eq in Hb, Hc. subst b c.
      cbn [headPair] in Hp. rewrite Ascii.eqb_refl, andb_true_r in Hp.
      change (LF +:+ ?x) with (String "010" x).
      cbn [String.append headPair]. rewrite Hp. reflexivity.
    + cbn [headPair] in Hp |- *. rewrite Hp. reflexivity.
Qed.

End StringFacts.

Import GoStrings Archlog Spec StringFacts Samples.

(** ** Nickname derivation *)

(** C7, counterexample: the nickname of "Jane (Janey) Doe" is not
    "jdoe". *)
Lemma generateNick_alias_is_not_jdoe :
  ~ (forall lib : Library, generateNick "Jane (Janey) Doe" = Val "jdoe").
Proof. intros H. specialize (H plainLibrary). vm_compute in H. discriminate H. Qed.

(** C7, amended: "Jane Doe" gives "jdoe"; "Jane (Janey) Doe" is derived
    from the text between the parentheses alone, "Janey", and gives
    "jjaney"; a name without a space is returned unchanged; and [mapRunes]
    sends the accented letter "ø" (U+00F8) to "o", so that "Jane Bøe" gives
    "jboe". *)
Theorem generateNick_examples (lib : Library) :
  generateNick "Jane Doe" = Val "jdoe" /\
  (slice "Jane (Janey) Doe" (Index "Jane (Janey) Doe" "(" + 1)
         (LastIndex "Jane (Janey) Doe" ")") = Some "Janey" /\
   generateNick "Jane (Janey) Doe" = Val "jjaney") /\
  (forall name : string, count_char " " name = 0%nat -> generateNick name = Val name) /\
  (DecodeRuneInString "ø" = (248, 2%nat) /\ mapRunes 248 = 111 /\
   EncodeRune 111 = "o" /\ generateNick "Jane Bøe" = Val "jboe").
Proof.
  split; [reflexivity|]. split; [split; reflexivity|]. split.
  - intros name Hname. unfold generateNick.
    apply Index_char_none in Hname. now rewrite Hname.
  - repeat split; reflexivity.
Qed.

Lemma generateNick_examples_witness :
  count_char " " "arodseth" = 0%nat /\
  generateNick (lib := plainLibrary) "arodseth" = Val "arodseth".
Proof.
  split; [reflexivity|].
  apply (proj1 (proj2 (proj2 (generateNick_examples plainLibrary)))). reflexivity.
Defined.

(** C10: [generateNick] is partial.  A name that begins with a space, and
    a name whose parenthesized alias begins with a space, contain a space
    and have an empty first token; [firstname[0]] is then out of range and
    the call panics.  This holds for every name that begins with a space
    and has no "(". *)
Theorem generateNick_partial (lib : Library) :
  (index (Split " Jane" " ") 0 = Val "" /\
   generateNick " Jane" = Panicked index_out_of_range) /\
  (slice "Jane ( Janey)" 6 12 = Some " Janey" /\
   index (Split " Janey" " ") 0 = Val "" /\
   generateNick "Jane ( Janey)" = Panicked index_out_of_range) /\
  (forall rest : string,
     count_char "(" rest = 0%nat ->
     index (Split (" " +:+ rest) " ") 0 = Val "" /\
     generateNick (" " +:+ rest) = Panicked index_out_of_range).
Proof.
  split; [split; reflexivity|]. split; [repeat split; reflexivity|].
  intros rest Hrest.
  assert (Split (" " +:+ rest) " " = "" :: Split_aux rest " " 0) as Hsplit.
  { unfold Split. change (" " +:+ rest) with (String " " rest).
    cbn [Split_aux]. rewrite prefix_char. reflexivity. }
  split; [now rewrite Hsplit|].
  unfold generateNick.
  assert (Index (" " +:+ rest) " " = 0) as ->.
  { unfold Index. change (" " +:+ rest) with (String " " rest).
    cbn [Index_from]. now rewrite prefix_char. }
  assert (Index (" " +:+ rest) "(" = -1) as ->.
  { apply Index_char_none. change (" " +:+ rest) with (String " " rest).
    cbn [count_char]. now rewrite Hrest. }
  cbn [Z.eqb Pos.eqb negb andb]. rewrite Hsplit. cbn [rbind].
  change (index ("" :: Split_aux rest " " 0) 0) with (@Val string "").
  cbn [rbind].
  destruct (index_last ("" :: Split_aux rest " " 0)) as [lastname ->];
    [discriminate|].
  reflexivity.
Qed.

Lemma generateNick_partial_witness :
  count_char "(" "Jane Doe" = 0%nat /\
  generateNick (lib := plainLibrary) " Jane Doe" = Panicked index_out_of_range.
Proof.
  split; [reflexivity|].
  apply (proj2 (proj2 (generateNick_partial plainLibrary)) "Jane Doe"). reflexivity.
Defined.

(** ** Email normalization *)

(** C6, counterexample: the tag scan behind the trusted-user, developer
    and fellows pages rewrites an address that has a single "." and no
    "@". *)
Lemma single_dot_email_is_rewritten :
  count_char "@" "jane.example" = 0%nat /\
  count_char "." "jane.example" = 1%nat /\
  emailOfTag "jane.example" = "jane@example" /\
  fst (nickToNameAndEmailWithUrl onePerson "jdoe" TU_URL start)
  = Val ("Jane Doe <jane@example>", None).
Proof. repeat split; vm_compute; reflexivity. Qed.

Lemma no_at_sign (email : string) :
  count_char "@" email = 0%nat ->
  Contains email "@" = false /\ Index email "@" = -1.
Proof.
  intros H. split.
  - rewrite Contains_char, H. reflexivity.
  - now apply Index_char_none.
Qed.

(** C6, amended: for an address without "@", the label scan
    ([nameToEmailWithUrl]) replaces the first "." by "@" when there are
    two or more "." and leaves the address unchanged when there is one or
    none; the tag scan ([nickToNameAndEmailWithUrl]) replaces the first
    "." by "@" when there is at least one "." and leaves the address
    unchanged when there is none. *)
Theorem email_normalization (email : string) :
  count_char "@" email = 0%nat ->
  ((2 <= count_char "." email)%nat ->
     exists pre post : string,
       email = pre +:+ "." +:+ post /\ count_char "." pre = 0%nat /\
       emailOfLabel email = pre +:+ "@" +:+ post) /\
  ((count_char "." email <= 1)%nat -> emailOfLabel email = email) /\
  ((1 <= count_char "." email)%nat ->
     exists pre post : string,
       email = pre +:+ "." +:+ post /\ count_char "." pre = 0%nat /\
       emailOfTag email = pre +:+ "@" +:+ post) /\
  (count_char "." email = 0%nat -> emailOfTag email = email).
Proof.
  intros Hat. destruct (no_at_sign email Hat) as [Hc Hi].
  unfold emailOfLabel, emailOfTag. rewrite Hc, Hi, Z.eqb_refl.
  rewrite Count_char, Contains_char. cbn [negb andb].
  repeat split.
  - intros H. destruct (Z.ltb_spec 1 (Z.of_nat (count_char "." email))); [|lia].
    apply (Replace_first_char "." "@" email). lia.
  - intros H. destruct (Z.ltb_spec 1 (Z.of_nat (count_char "." email))); [lia|].
    reflexivity.
  - intros H. destruct (Nat.eqb_spec (count_char "." email) 0); [lia|].
    cbn [negb]. now apply (Replace_first_char "." "@" email).
  - intros H. now rewrite H.
Qed.

Example email_a_b_c :
  emailOfLabel "a.b.c" = "a@b.c" /\ emailOfTag "a.b.c" = "a@b.c" /\
  emailOfLabel "a.b" = "a.b" /\ emailOfTag "a.b" = "a@b" /\
  emailOfLabel "ab" = "ab" /\ emailOfTag "ab" = "ab".
Proof. repeat split. Qed.

Lemma email_normalization_witness :
  count_char "@" "a.b.c" = 0%nat /\ (2 <= count_char "." "a.b.c")%nat /\
  exists pre post : string,
    "a.b.c" = pre +:+ "." +:+ post /\ count_char "." pre = 0%nat /\
    emailOfLabel "a.b.c" = pre +:+ "@" +:+ post.
Proof.
  split; [reflexivity|]. split; [vm_compute; lia|].
  apply (proj1 (email_normalization "a.b.c" eq_refl)). vm_compute; lia.
Defined.

(** ** The token loops terminate *)

Section ScanFacts.
Context {lib : Library}.

Lemma Skip_loop_unread (n : nat) (t t' : Scanner) :
  Skip_loop t n = (true, t') -> (unread t' + n <= unread t)%nat.
Proof.
  revert t; induction n as [|n IH]; intros t; cbn [Skip_loop].
  - intros [= ->]. lia.
  - pose proof (Next_unread t) as Hlaw.
    destruct (Scanner_Next t) as [toktype t1]; cbn [fst snd] in Hlaw.
    destruct (Z.eqb_spec toktype EOF) as [|Hne]; [discriminate|].
    intros H. specialize (IH _ H). specialize (Hlaw Hne). lia.
Qed.

Lemma Skip_unread (n : Z) (t t' : Scanner) :
  Skip t n = (true, t') -> (unread t' + Z.to_nat n <= unread t)%nat.
Proof. apply Skip_loop_unread. Qed.

Lemma listBoxLoop_terminates (nick : string) (fuel : nat) (t : Scanner) :
  (unread t < fuel)%nat -> listBoxLoop nick fuel t <> OutOfFuel.
Proof.
  revert t; induction fuel as [|fuel IH]; intros t Hfuel; [lia|].
  cbn [listBoxLoop].
  destruct (Skip t 1) as [ok t1] eqn:E1.
  destruct ok; cbn [negb]; [|discriminate].
  apply Skip_unread in E1. change (Z.to_nat 1) with 1%nat in E1.
  assert (unread t1 < fuel)%nat as H1 by lia.
  destruct (eqs (Scanner_TokenText t1) "option"); [|now apply IH].
  destruct (negb (eqs nick (Scanner_TokenText t1))); [now apply IH|].
  destruct (Skip t1 1) as [ok2 t2]. destruct ok2; discriminate.
Qed.

Lemma seekLoop_terminates (label text : string) (fuel : nat) (t : Scanner) :
  (unread t < fuel)%nat ->
  seekLoop label text fuel t <> OutOfFuel /\
  forall t', seekLoop label text fuel t = Val (Some t') -> (unread t' <= unread t)%nat.
Proof.
  revert text t; induction fuel as [|fuel IH]; intros text t Hfuel; [lia|].
  cbn [seekLoop].
  destruct (eqs text label).
  - split; [discriminate|]. intros t' [= ->]. lia.
  - destruct (Skip t 1) as [ok t1] eqn:E1.
    destruct ok; cbn [negb]; [|split; [discriminate|intros t'; discriminate]].
    apply Skip_unread in E1. change (Z.to_nat 1) with 1%nat in E1.
    destruct (IH (Scanner_TokenText t1) t1 ltac:(lia)) as [H1 H2].
    split; [exact H1|]. intros t' Ht'. specialize (H2 _ Ht'). lia.
Qed.

Lemma seekValue_terminates (label : string) (t : Scanner) :
  seekValue label t <> OutOfFuel /\
  forall t', seekValue label t = Val (Some t') -> (unread t' <= unread t)%nat.
Proof.
  unfold seekValue, seek.
  destruct (seekLoop_terminates label "" (S (unread t)) t ltac:(lia)) as [H1 H2].
  destruct (seekLoop label "" (S (unread t)) t) as [[t1|]| | |] eqn:E;
    cbn [rbind]; try (split; [discriminate | intros t'; discriminate]).
  - specialize (H2 _ eq_refl).
    destruct (Skip t1 4) as [ok t2] eqn:E4.
    destruct ok; cbn [negb]; [|split; [discriminate | intros t'; discriminate]].
    apply Skip_unread in E4.
    split; [discriminate|]. intros t' [= <-]. lia.
  - now elim H1.
Qed.

Lemma emailLoop_terminates (fullname : string) (fuel : nat) (t : Scanner) :
  (unread t < fuel)%nat -> emailLoop fullname fuel t <> OutOfFuel.
Proof.
  revert t; induction fuel as [|fuel IH]; intros t Hfuel; [lia|].
  cbn [emailLoop].
  destruct (Skip t 1) as [ok t1] eqn:E1.
  destruct ok; cbn [negb]; [|discriminate].
  apply Skip_unread in E1. change (Z.to_nat 1) with 1%nat in E1.
  destruct (eqs (Scanner_TokenText t1) "a"); [|apply IH; lia].
  destruct (seekValue_terminates "Name:" t1) as [N1 N2].
  destruct (seekValue "Name:" t1) as [[t2|]| | |]; cbn [rbind];
    try discriminate; [|now elim N1].
  specialize (N2 _ eq_refl).
  destruct (negb (eqs _ _)); [apply IH; lia|].
  destruct (seekValue_terminates "Alias:" t2) as [A1 _].
  destruct (seekValue "Alias:" t2) as [[t3|]| | |]; cbn [rbind];
    try discriminate; [|now elim A1].
  destruct (seekValue_terminates "Email:" t3) as [M1 _].
  destruct (seekValue "Email:" t3) as [[t4|]| | |]; cbn [rbind];
    try discriminate. now elim M1.
Qed.

End ScanFacts.

(** ** The resolver *)

Lemma rbind_settled {A B : Type} (r : result A) (f : A -> result B) :
  settled r -> (forall a, r = Val a -> settled (f a)) -> settled (rbind r f).
Proof. destruct r; cbn; auto. Qed.

Lemma index_settled (l : list string) (i : Z) : settled (index l i).
Proof.
  unfold index. destruct (i <? 0); [exact I|].
  destruct (nth_error l (Z.to_nat i)); exact I.
Qed.

Lemma scanTag_settled (nick : string) (i : Z) (tag : string) (st : TagScan) :
  settled (scanTag nick i tag st).
Proof.
  unfold scanTag.
  repeat match goal with
         | |- settled (if ?c then _ else _) => destruct c
         | |- settled (rbind _ _) =>
             apply rbind_settled; [apply index_settled | intros ? _]
         | |- settled (Val _) => exact I
         end.
Qed.

Lemma scanTags_settled (nick : string) (tags : list string) (i : Z) (st : TagScan) :
  settled (scanTags nick tags i st).
Proof.
  revert i st; induction tags as [|tag tags IH]; intros i st; cbn [scanTags];
    [exact I|].
  apply rbind_settled; [apply scanTag_settled|].
  intros [st' brk] _. cbn [fst snd]. destruct brk; [exact I | apply IH].
Qed.

Section ResolverFacts.
Context {lib : Library}.
Variable w : World.

Lemma listBoxLoop_settled (nick : string) (fuel : nat) (t : Scanner) :
  (unread t < fuel)%nat -> settled (listBoxLoop nick fuel t).
Proof.
  intros Hfuel. pose proof (listBoxLoop_terminates nick fuel t Hfuel) as Hterm.
  destruct (listBoxLoop nick fuel t) as [v|msg|code|] eqn:E; try exact I;
    [|now elim Hterm].
  exfalso. clear Hterm Hfuel. revert t E.
  induction fuel as [|fuel IH]; intros t; cbn [listBoxLoop]; [discriminate|].
  destruct (Skip t 1) as [ok t1]. destruct ok; cbn [negb]; [|discriminate].
  destruct (eqs _ "option"); [|apply IH].
  destruct (negb _); [apply IH|].
  destruct (Skip t1 1) as [ok2 t2]. destruct ok2; discriminate.
Qed.

Lemma seekValue_not_Exited (label : string) (t : Scanner) (code : Z) :
  seekValue label t <> Exited code.
Proof.
  unfold seekValue, seek.
  assert (forall fuel text t0, seekLoop label text fuel t0 <> Exited code) as H.
  { induction fuel as [|fuel IH]; intros text t0; cbn [seekLoop];
      (destruct (eqs text label); [discriminate|]); [discriminate|].
    destruct (Skip t0 1) as [ok t1]. destruct ok; cbn [negb];
      [apply IH | discriminate]. }
  specialize (H (S (unread t)) "" t).
  destruct (seekLoop label "" (S (unread t)) t) as [[t1|]| | |]; cbn [rbind];
    try discriminate; [|congruence].
  destruct (Skip t1 4) as [ok t2]. destruct ok; discriminate.
Qed.

Lemma emailLoop_settled (fullname : string) (fuel : nat) (t : Scanner) :
  (unread t < fuel)%nat -> settled (emailLoop fullname fuel t).
Proof.
  intros Hfuel. pose proof (emailLoop_terminates fullname fuel t Hfuel) as Hterm.
  destruct (emailLoop fullname fuel t) as [v|msg|code|] eqn:E; try exact I;
    [|now elim Hterm].
  exfalso. clear Hterm Hfuel. revert t E.
  induction fuel as [|fuel IH]; intros t; cbn [emailLoop]; [discriminate|].
  destruct (Skip t 1) as [ok t1]. destruct ok; cbn [negb]; [|discriminate].
  destruct (eqs _ "a"); [|apply IH].
  pose proof (seekValue_not_Exited "Name:" t1 code) as N.
  destruct (seekValue "Name:" t1) as [[t2|]| | |]; cbn [rbind];
    try discriminate; [|congruence].
  destruct (negb _); [apply IH|].
  pose proof (seekValue_not_Exited "Alias:" t2 code) as A.
  destruct (seekValue "Alias:" t2) as [[t3|]| | |]; cbn [rbind];
    try discriminate; [|congruence].
  pose proof (seekValue_not_Exited "Email:" t3 code) as M.
  destruct (seekValue "Email:" t3) as [[t4|]| | |]; cbn [rbind];
    try discriminate. congruence.
Qed.

Lemma Get_run (url : string) (s : State) :
  Get w url s = (Val (http_get w (List.length (requests s)) url), sent s url).
Proof. reflexivity. Qed.

(** Each page function makes exactly one request and touches nothing
    else; it returns or panics. *)
Lemma nickToNameAndEmailWithUrl_frame (nick url : string) (s : State) :
  snd (nickToNameAndEmailWithUrl w nick url s) = sent s url /\
  settled (fst (nickToNameAndEmailWithUrl w nick url s)).
Proof.
  unfold nickToNameAndEmailWithUrl, bind. rewrite Get_run.
  destruct (http_get w (List.length (requests s)) url) as [msg|b [msg|]];
    try (split; [reflexivity | exact I]).
  unfold lift.
  pose proof (scanTags_settled nick (Split b "<") 0
                {| name := ""; email := ""; counter := 0; email_index := -1;
                   found := false |}) as Hs.
  destruct (scanTags nick (Split b "<") 0 _) as [st| | |];
    try (split; [reflexivity | exact Hs]).
  destruct (found st); split; try reflexivity; exact I.
Qed.

Lemma getWebPageTokenizer_run (url : string) (s : State) :
  getWebPageTokenizer w url s
  = (Val match http_get w (List.length (requests s)) url with
         | NetError _ => (None, None)
         | Page body _ => (Some (Scanner_Init body), Some tt)
         end, sent s url).
Proof.
  unfold getWebPageTokenizer, bind. rewrite Get_run.
  now destruct (http_get w (List.length (requests s)) url).
Qed.

Lemma nickToNameFromListBox_frame (nick url : string) (s : State) :
  snd (nickToNameFromListBox w nick url s) = sent s url /\
  settled (fst (nickToNameFromListBox w nick url s)).
Proof.
  unfold nickToNameFromListBox, bind. rewrite getWebPageTokenizer_run.
  destruct (http_get w (List.length (requests s)) url) as [msg|b e];
    cbn -[listBoxLoop].
  - split; [reflexivity | exact I].
  - split; [reflexivity|]. apply listBoxLoop_settled. lia.
Qed.

Lemma nameToEmailWithUrl_frame (fullname url : string) (s : State) :
  snd (nameToEmailWithUrl w fullname url s) = sent s url /\
  settled (fst (nameToEmailWithUrl w fullname url s)).
Proof.
  unfold nameToEmailWithUrl, bind. rewrite getWebPageTokenizer_run.
  destruct (http_get w (List.length (requests s)) url) as [msg|b e];
    cbn -[emailLoop].
  - split; [reflexivity | exact I].
  - split; [reflexivity|]. apply emailLoop_settled. lia.
Qed.

(** A failed request makes the two token scans panic. *)
Lemma nickToNameFromListBox_NetError (nick url msg : string) (s : State) :
  http_get w (List.length (requests s)) url = NetError msg ->
  nickToNameFromListBox w nick url s = (Panicked nil_dereference, sent s url).
Proof.
  intros H. unfold nickToNameFromListBox, bind.
  rewrite getWebPageTokenizer_run, H. reflexivity.
Qed.

Lemma nameToEmailWithUrl_NetError (fullname url msg : string) (s : State) :
  http_get w (List.length (requests s)) url = NetError msg ->
  nameToEmailWithUrl w fullname url s = (Panicked nil_dereference, sent s url).
Proof.
  intros H. unfold nameToEmailWithUrl, bind.
  rewrite getWebPageTokenizer_run, H. reflexivity.
Qed.

End ResolverFacts.

(** The list box compares the handle with the token it has just
    compared with "option": only that handle can match. *)
Lemma listBox_matches_only_option {lib : Library} (nick : string) (fuel : nat)
      (t : Scanner) (display : string) :
  listBoxLoop nick fuel t = Val (display, None) -> nick = "option".
Proof.
  revert t; induction fuel as [|fuel IH]; intros t; cbn [listBoxLoop];
    [discriminate|].
  destruct (Skip t 1) as [ok t1]. destruct ok; cbn [negb]; [|discriminate].
  destruct (eqs (Scanner_TokenText t1) "option") eqn:Etag; [|apply IH].
  destruct (eqs nick (Scanner_TokenText t1)) eqn:Enick; cbn [negb]; [|apply IH].
  intros _. apply String.eqb_eq in Etag, Enick. congruence.
Qed.

(** ** The token scans under Go's scanner *)

Section WithGoScanner.
Variables (lower : Z -> Z) (unmarshal : string -> LogEntries * error).
Let go : Library := goLibrary lower unmarshal.

Lemma goScanner_Skip_TokenText (n : nat) (t t' : GoScanner.Scanner) :
  Skip_loop (lib := go) t (S n) = (true, t') ->
  Scanner_TokenText (Library := go) t' = "".
Proof.
  revert t; induction n as [|n IH]; intros t; cbn [Skip_loop].
  - pose proof (GoScannerFacts.TokenText_Next t) as H.
    change (Scanner_Next (Library := go) t) with (GoScanner.Next t).
    destruct (GoScanner.Next t) as [c t1]. cbn [snd] in H.
    destruct (c =? EOF); [discriminate|]. now intros [= <-].
  - change (Scanner_Next (Library := go) t) with (GoScanner.Next t).
    destruct (GoScanner.Next t) as [c t1].
    destruct (c =? EOF); [discriminate|]. apply IH.
Qed.

Lemma goScanner_listBoxLoop (nick : string) (fuel : nat) (t : GoScanner.Scanner) :
  listBoxLoop (lib := go) nick fuel t = OutOfFuel \/
  listBoxLoop (lib := go) nick fuel t = Val ("", tokerror).
Proof.
  revert t; induction fuel as [|fuel IH]; intros t; cbn [listBoxLoop]; [now left|].
  destruct (Skip (lib := go) t 1) as [ok t1] eqn:E.
  destruct ok; cbn [negb]; [|now right].
  unfold Skip in E. change (Z.to_nat 1) with 1%nat in E.
  rewrite (goScanner_Skip_TokenText 0 t t1 E).
  change (eqs "" "option") with false. cbv iota. apply IH.
Qed.

Lemma goScanner_emailLoop (fullname : string) (fuel : nat) (t : GoScanner.Scanner) :
  emailLoop (lib := go) fullname fuel t = OutOfFuel \/
  emailLoop (lib := go) fullname fuel t = Val ("", tokerror).
Proof.
  revert t; induction fuel as [|fuel IH]; intros t; cbn [emailLoop]; [now left|].
  destruct (Skip (lib := go) t 1) as [ok t1] eqn:E.
  destruct ok; cbn [negb]; [|now right].
  unfold Skip in E. change (Z.to_nat 1) with 1%nat in E.
  rewrite (goScanner_Skip_TokenText 0 t t1 E).
  change (eqs "" "a") with false. cbv iota. apply IH.
Qed.

(** With Go's scanner the two token scans never report a match: they
    panic when the request fails and run out of tokens otherwise. *)
Lemma goScanner_never_matches (w : World) (key url : string) (s : State) :
  (fst (nickToNameFromListBox (lib := go) w key url s) = Panicked nil_dereference \/
   fst (nickToNameFromListBox (lib := go) w key url s) = Val ("", tokerror)) /\
  (fst (nameToEmailWithUrl (lib := go) w key url s) = Panicked nil_dereference \/
   fst (nameToEmailWithUrl (lib := go) w key url s) = Val ("", tokerror)).
Proof.
  split.
  - unfold nickToNameFromListBox, bind. rewrite getWebPageTokenizer_run.
    destruct (http_get w (List.length (requests s)) url) as [msg|b e];
      cbn -[listBoxLoop]; [now left|].
    pose proof (listBoxLoop_terminates (lib := go) key
                  (S (GoScanner.unread (GoScanner.Init b))) (GoScanner.Init b)
                  (Nat.lt_succ_diag_r _)) as Ht.
    destruct (goScanner_listBoxLoop key (S (GoScanner.unread (GoScanner.Init b)))
                (GoScanner.Init b)) as [H|H]; [now elim Ht | now right].
  - unfold nameToEmailWithUrl, bind. rewrite getWebPageTokenizer_run.
    destruct (http_get w (List.length (requests s)) url) as [msg|b e];
      cbn -[emailLoop]; [now left|].
    pose proof (emailLoop_terminates (lib := go) key
                  (S (GoScanner.unread (GoScanner.Init b))) (GoScanner.Init b)
                  (Nat.lt_succ_diag_r _)) as Ht.
    destruct (goScanner_emailLoop key (S (GoScanner.unread (GoScanner.Init b)))
                (GoScanner.Init b)) as [H|H]; [now elim Ht | now right].
Qed.

End WithGoScanner.

Section ResolverRuns.
Context {lib : Library}.
Variable w : World.

Ltac page_call :=
  match goal with
  | |- context [nickToNameAndEmailWithUrl w ?n ?u ?s] =>
    let F := fresh "F" in
    let G := fresh "G" in
    destruct (nickToNameAndEmailWithUrl_frame w n u s) as [F G];
    destruct (nickToNameAndEmailWithUrl w n u s) as [[[? [?|]]| | |] ?]
  | |- context [nickToNameFromListBox w ?n ?u ?s] =>
    let F := fresh "F" in
    let G := fresh "G" in
    destruct (nickToNameFromListBox_frame w n u s) as [F G];
    destruct (nickToNameFromListBox w n u s) as [[[? [?|]]| | |] ?]
  | |- context [nameToEmailWithUrl w ?n ?u ?s] =>
    let F := fresh "F" in
    let G := fresh "G" in
    destruct (nameToEmailWithUrl_frame w n u s) as [F G];
    destruct (nameToEmailWithUrl w n u s) as [[[? [?|]]| | |] ?]
  end;
  cbn [fst snd settled] in *; try contradiction; subst; unfold sent;
  cbn -[nickToNameAndEmailWithUrl nickToNameFromListBox nameToEmailWithUrl
        TU_URL DEV_URL PKG_URL FEL_URL nameAndEmail].

Ltac close_run :=
  unfold after, ret; cbn [nickCache stdout requests];
  repeat rewrite <- app_assoc; cbn [app];
  match goal with
  | |- exists r urls,
         (?r0, {| nickCache := _; stdout := _; requests := _ ++ ?k |}) = _ /\ _ =>
    exists r0, k; split; [reflexivity|]; split; [exact I|]; cbn [In]; auto 10
  end.

(** A cache miss: the resolver returns a value and stores it, or
    panics and stores nothing; the pages were requested in the order
    trusted users, developers, packages (then trusted users and
    developers again), fellows, up to the page that settled the call. *)
Lemma resolve_miss (nick : string) (s : State) :
  cached s nick = None ->
  exists (r : result string) (urls : list string),
    nickToNameAndEmail w nick s
    = (r, after s match r with
                  | Val v => <[nick := v]> (default ∅ (nickCache s))
                  | _ => default ∅ (nickCache s)
                  end urls) /\
    settled r /\
    match r with
    | Val _ =>
      In urls [[TU_URL]; [TU_URL; DEV_URL]; [TU_URL; DEV_URL; PKG_URL; TU_URL];
               [TU_URL; DEV_URL; PKG_URL; TU_URL; DEV_URL];
               [TU_URL; DEV_URL; PKG_URL; FEL_URL]]
    | _ =>
      In urls [[TU_URL]; [TU_URL; DEV_URL]; [TU_URL; DEV_URL; PKG_URL];
               [TU_URL; DEV_URL; PKG_URL; TU_URL];
               [TU_URL; DEV_URL; PKG_URL; TU_URL; DEV_URL];
               [TU_URL; DEV_URL; PKG_URL; FEL_URL]]
    end.
Proof.
  destruct s as [cache out reqs]. unfold cached. cbn [nickCache].
  intros Hmiss.
  assert (default ∅ cache !! nick = None) as Hc
    by (destruct cache; [exact Hmiss | apply lookup_empty]).
  unfold nickToNameAndEmail.
  assert (forall A (k : M A),
            bind makeCache (fun _ => k)
              {| nickCache := cache; stdout := out; requests := reqs |}
            = k {| nickCache := Some (default ∅ cache); stdout := out;
                   requests := reqs |}) as ->
    by (intros A k; unfold bind, makeCache; now destruct cache).
  unfold bind at 1. unfold lookupCache. cbn [nickCache mbind option_bind].
  rewrite Hc. unfold after. cbn [nickCache stdout requests].
  clear Hmiss. generalize dependent (default ∅ cache). clear cache. intros c Hc.
  unfold bind.
  repeat first [close_run | page_call].
Qed.

End ResolverRuns.

Section ResolverTheorems.
Context {lib : Library}.

Lemma makeCache_run (s : State) : makeCache s = (Val tt, made s).
Proof.
  unfold makeCache, made. destruct s as [[c|] out reqs]; reflexivity.
Qed.

Lemma made_cached (s : State) (nick : string) : cached (made s) nick = cached s nick.
Proof.
  unfold cached, made. cbn. destruct (nickCache s); [reflexivity|].
  cbn. now rewrite lookup_empty.
Qed.

(** A cache hit: the stored value, no request, no change. *)
Lemma resolve_hit (w : World) (nick v : string) (s : State) :
  cached s nick = Some v -> nickToNameAndEmail w nick s = (Val v, s).
Proof.
  intros H. unfold nickToNameAndEmail, bind. rewrite makeCache_run.
  unfold lookupCache. fold (cached (made s) nick). rewrite made_cached, H.
  unfold ret. f_equal. unfold made, cached in *.
  destruct s as [[c|] out reqs]; [reflexivity | discriminate].
Qed.

Lemma cached_after (s : State) (c : gmap string string) (urls : list string)
      (k : string) :
  cached (after s c urls) k = c !! k.
Proof. reflexivity. Qed.

Lemma cached_default (s : State) (k v : string) :
  cached s k = Some v -> default ∅ (nickCache s) !! k = Some v.
Proof. unfold cached. destruct (nickCache s); [auto | discriminate]. Qed.

(** What is in the cache stays there. *)
Lemma cached_kept (w : World) (nick k v : string) (s s' : State) (r : result string) :
  cached s k = Some v -> nickToNameAndEmail w nick s = (r, s') ->
  cached s' k = Some v.
Proof.
  intros Hk Hrun.
  destruct (cached s nick) as [v'|] eqn:Hn.
  - rewrite (resolve_hit w nick v' s Hn) in Hrun. now inversion Hrun; subst.
  - destruct (resolve_miss w nick s Hn) as (r0 & urls & E & _ & _).
    rewrite E in Hrun. inversion Hrun; subst. rewrite cached_after.
    assert (nick <> k) as Hne.
    { intros ->. rewrite Hk in Hn. discriminate Hn. }
    apply cached_default in Hk.
    destruct r; try exact Hk. now rewrite lookup_insert_ne.
Qed.

Lemma cached_later (s s2 : State) (k v : string) :
  later s s2 -> cached s k = Some v -> cached s2 k = Some v.
Proof.
  induction 1 as [s|w nick s s1 s2 r _ IH Hrun|s s1 text _ IH]; intros Hk.
  - exact Hk.
  - exact (cached_kept w nick k v s1 s2 r (IH Hk) Hrun).
  - specialize (IH Hk). exact IH.
Qed.

(** Every call of the resolver returns or panics: the step budget of
    the token loops is never the reason for its result. *)
Lemma resolve_settles (w : World) (nick : string) (s : State) :
  settled (fst (nickToNameAndEmail w nick s)).
Proof.
  destruct (cached s nick) as [v|] eqn:Hn.
  - now rewrite (resolve_hit w nick v s Hn).
  - destruct (resolve_miss w nick s Hn) as (r & urls & E & Hr & _).
    now rewrite E.
Qed.

(** What the resolver returns is in the cache when it returns. *)
Lemma returned_is_cached (w : World) (nick v : string) (s s' : State) :
  nickToNameAndEmail w nick s = (Val v, s') -> cached s' nick = Some v.
Proof.
  intros Hrun.
  destruct (cached s nick) as [v'|] eqn:Hn.
  - rewrite (resolve_hit w nick v' s Hn) in Hrun. now inversion Hrun; subst.
  - destruct (resolve_miss w nick s Hn) as (r0 & urls & E & _ & _).
    rewrite E in Hrun. inversion Hrun; subst.
    rewrite cached_after. apply lookup_insert_eq.
Qed.

(** C4: every value the resolver returns is in the cache when it
    returns; a second call, then or at any later point of the process and
    whatever the pages say by then, returns that value and leaves the
    state as it is, the list of requests included. *)
Theorem resolve_memoized (w : World) (nick v : string) (s s' : State) :
  nickToNameAndEmail w nick s = (Val v, s') ->
  cached s' nick = Some v /\
  (forall w' : World, nickToNameAndEmail w' nick s' = (Val v, s')) /\
  (forall (s2 : State) (w' : World),
     later s' s2 ->
     nickToNameAndEmail w' nick s2 = (Val v, s2) /\
     requests (snd (nickToNameAndEmail w' nick s2)) = requests s2).
Proof.
  intros Hrun.
  pose proof (returned_is_cached w nick v s s' Hrun) as Hc.
  split; [exact Hc|]. split.
  - intros w'. now apply resolve_hit.
  - intros s2 w' Hlater.
    pose proof (cached_later s' s2 nick v Hlater Hc) as Hc2.
    rewrite (resolve_hit w' nick v s2 Hc2). split; reflexivity.
Qed.

(** The three ways a call of the resolver ends, by the requests made. *)
Lemma resolve_exhausted (w : World) (nick : string) (s : State)
      (x1 e1 x2 e2 x3 e3 x4 e4 : string) :
  cached s nick = None ->
  fst (nickToNameAndEmailWithUrl w nick TU_URL (made s)) = Val (x1, Some e1) ->
  fst (nickToNameAndEmailWithUrl w nick DEV_URL (sent (made s) TU_URL))
  = Val (x2, Some e2) ->
  fst (nickToNameFromListBox w nick PKG_URL (sent (sent (made s) TU_URL) DEV_URL))
  = Val (x3, Some e3) ->
  fst (nickToNameAndEmailWithUrl w nick FEL_URL
         (sent (sent (sent (made s) TU_URL) DEV_URL) PKG_URL))
  = Val (x4, Some e4) ->
  nickToNameAndEmail w nick s
  = (Val nick, after s (<[nick := nick]> (default ∅ (nickCache s)))
                 [TU_URL; DEV_URL; PKG_URL; FEL_URL]).
Proof.
  intros Hmiss HA HB HC HD.
  unfold nickToNameAndEmail, bind. rewrite makeCache_run.
  unfold lookupCache. fold (cached (made s) nick). rewrite made_cached, Hmiss.
  pose proof (nickToNameAndEmailWithUrl_frame w nick TU_URL (made s)) as [FA _].
  destruct (nickToNameAndEmailWithUrl w nick TU_URL (made s)) as [rA sA].
  cbn [fst snd] in *. subst. cbn [snd].
  pose proof (nickToNameAndEmailWithUrl_frame w nick DEV_URL (sent (made s) TU_URL))
    as [FB _].
  destruct (nickToNameAndEmailWithUrl w nick DEV_URL _) as [rB sB].
  cbn [fst snd] in *. subst. cbn [snd].
  pose proof (nickToNameFromListBox_frame w nick PKG_URL
                (sent (sent (made s) TU_URL) DEV_URL)) as [FC _].
  destruct (nickToNameFromListBox w nick PKG_URL _) as [rC sC].
  cbn [fst snd] in *. subst. cbn [snd].
  pose proof (nickToNameAndEmailWithUrl_frame w nick FEL_URL
                (sent (sent (sent (made s) TU_URL) DEV_URL) PKG_URL)) as [FD _].
  destruct (nickToNameAndEmailWithUrl w nick FEL_URL _) as [rD sD].
  cbn [fst snd] in *. subst. cbn [snd].
  unfold storeCache, ret, after, sent, made. cbn [nickCache stdout requests].
  repeat rewrite <- app_assoc. reflexivity.
Qed.

Lemma resolve_listbox_panics (w : World) (nick : string) (s : State)
      (x1 e1 x2 e2 msg : string) :
  cached s nick = None ->
  fst (nickToNameAndEmailWithUrl w nick TU_URL (made s)) = Val (x1, Some e1) ->
  fst (nickToNameAndEmailWithUrl w nick DEV_URL (sent (made s) TU_URL))
  = Val (x2, Some e2) ->
  http_get w (List.length (requests s) + 2) PKG_URL = NetError msg ->
  nickToNameAndEmail w nick s
  = (Panicked nil_dereference,
     after s (default ∅ (nickCache s)) [TU_URL; DEV_URL; PKG_URL]).
Proof.
  intros Hmiss HA HB HC.
  unfold nickToNameAndEmail, bind. rewrite makeCache_run.
  unfold lookupCache. fold (cached (made s) nick). rewrite made_cached, Hmiss.
  pose proof (nickToNameAndEmailWithUrl_frame w nick TU_URL (made s)) as [FA _].
  destruct (nickToNameAndEmailWithUrl w nick TU_URL (made s)) as [rA sA].
  cbn [fst snd] in *. subst. cbn [snd].
  pose proof (nickToNameAndEmailWithUrl_frame w nick DEV_URL (sent (made s) TU_URL))
    as [FB _].
  destruct (nickToNameAndEmailWithUrl w nick DEV_URL _) as [rB sB].
  cbn [fst snd] in *. subst. cbn [snd].
  rewrite (nickToNameFromListBox_NetError w nick PKG_URL msg).
  - unfold after, sent, made. cbn [nickCache stdout requests].
    repeat rewrite <- app_assoc. reflexivity.
  - unfold sent, made. cbn [requests]. rewrite !length_app. cbn [List.length].
    replace (List.length (requests s) + 1 + 1)%nat
      with (List.length (requests s) + 2)%nat by lia.
    exact HC.
Qed.

End ResolverTheorems.

Lemma resolve_memoized_witness :
  let run := nickToNameAndEmail (lib := plainLibrary) emptyPages "alice" start in
  run = (Val "alice", snd run) /\ cached (snd run) "alice" = Some "alice".
Proof.
  assert (nickToNameAndEmail (lib := plainLibrary) emptyPages "alice" start
          = (Val "alice",
             snd (nickToNameAndEmail (lib := plainLibrary) emptyPages "alice" start)))
    as Hrun by (vm_compute; reflexivity).
  split; [exact Hrun|].
  exact (proj1 (resolve_memoized (lib := plainLibrary) emptyPages "alice" "alice"
                  start _ Hrun)).
Defined.

Section OrderOfSources.
Context {lib : Library}.
Variable w : World.

(** The code is the cascade of the specification. *)
Lemma cascade_refines (nick : string) (s : State) :
  nickToNameAndEmail w nick s = resolve w nick s.
Proof.
  unfold nickToNameAndEmail, resolve, sourceA, sourceB, sourceC, sourceD,
    structuralScan, emailByFullName. cbn [firstSuccess].
  generalize (nickToNameAndEmailWithUrl w) (nickToNameFromListBox w)
    (nameToEmailWithUrl w). intros fA fC fE.
  unfold bind, ret.
  destruct (makeCache s) as [[[]| | |] s0]; try reflexivity.
  destruct (lookupCache nick s0) as [[[v|]| | |] s1]; try reflexivity.
  repeat (match goal with
          | |- context [?f ?n ?u ?s] =>
            first [is_var f; is_var s |
                   is_var f; match s with sent _ _ => idtac end];
            destruct (f n u s) as [[[? [?|]]| | |] ?]
          end; cbn [fst snd default]; try reflexivity);
    destruct (storeCache _ _ _) as [[[]| | |] ?]; reflexivity.
Qed.

(** C3: the resolver is the first-success cascade over Source A, Source
    B, Source C and Source D in this order, Source C being the list box
    followed, on a match, by the lookups of the full name on the page of
    Source A and then on that of Source B; and on a cache miss the pages
    are requested in that order: the requests made are a non-empty
    beginning of trusted users, developers, packages, trusted users,
    developers, or of trusted users, developers, packages, fellows. *)
Theorem resolve_order (nick : string) (s : State) :
  cached s nick = None ->
  nickToNameAndEmail w nick s
  = (makeCache ;;;
     hit <- lookupCache nick ;;
     match hit with
     | Some display => ret display
     | None =>
       r <- firstSuccess [sourceA w; sourceB w; sourceC w; sourceD w] nick ;;
       storeCache nick (default nick r) ;;; ret (default nick r)
     end) s /\
  (forall handle : string,
     sourceC w handle
     = (r <- nickToNameFromListBox w handle PKG_URL ;;
        match snd r with
        | Some _ => ret None
        | None =>
          e <- firstSuccess [emailByFullName w TU_URL; emailByFullName w DEV_URL]
                 (fst r) ;;
          ret (Some (match e with
                     | Some email => nameAndEmail (fst r) email
                     | None => fst r
                     end))
        end)) /\
  exists urls : list string,
    requests (snd (nickToNameAndEmail w nick s)) = (requests s ++ urls)%list /\
    urls <> [] /\
    ((exists rest, [TU_URL; DEV_URL; PKG_URL; TU_URL; DEV_URL] = (urls ++ rest)%list) \/
     (exists rest, [TU_URL; DEV_URL; PKG_URL; FEL_URL] = (urls ++ rest)%list)).
Proof.
  intros Hmiss. split; [apply cascade_refines|]. split; [reflexivity|].
  destruct (resolve_miss w nick s Hmiss) as (r & urls & E & _ & Hurls).
  exists urls. rewrite E. split; [reflexivity|].
  assert (In urls [[TU_URL]; [TU_URL; DEV_URL]; [TU_URL; DEV_URL; PKG_URL];
                   [TU_URL; DEV_URL; PKG_URL; TU_URL];
                   [TU_URL; DEV_URL; PKG_URL; TU_URL; DEV_URL];
                   [TU_URL; DEV_URL; PKG_URL; FEL_URL]]) as Hin
    by (destruct r; cbn [In] in *; intuition auto).
  clear Hurls. cbn [In] in Hin.
  destruct Hin as [<-|[<-|[<-|[<-|[<-|[<-|[]]]]]]];
    (split; [discriminate|]).
  - left. now exists [DEV_URL; PKG_URL; TU_URL; DEV_URL].
  - left. now exists [PKG_URL; TU_URL; DEV_URL].
  - left. now exists [TU_URL; DEV_URL].
  - left. now exists [DEV_URL].
  - left. now exists [].
  - right. now exists [].
Qed.

End OrderOfSources.

Lemma resolve_order_witness :
  cached start "alice" = None /\
  exists urls : list string,
    requests (snd (nickToNameAndEmail (lib := plainLibrary) emptyPages "alice" start))
    = (requests start ++ urls)%list /\
    urls <> [] /\
    ((exists rest, [TU_URL; DEV_URL; PKG_URL; TU_URL; DEV_URL] = (urls ++ rest)%list) \/
     (exists rest, [TU_URL; DEV_URL; PKG_URL; FEL_URL] = (urls ++ rest)%list)).
Proof.
  split; [reflexivity|].
  exact (proj2 (proj2 (resolve_order (lib := plainLibrary) emptyPages "alice" start
                         eq_refl))).
Defined.

(** ** Failures of a remote fetch *)

(** A page that ends inside the name attribute makes the tag scan panic,
    whatever the handle. *)
Lemma cut_page_panics (nick url : string) (s : State) :
  fst (nickToNameAndEmailWithUrl cutPages nick url s) = Panicked index_out_of_range.
Proof.
  unfold nickToNameAndEmailWithUrl, bind. rewrite Get_run.
  change (http_get cutPages (List.length (requests s)) url) with (Page cutPage None).
  cbv iota beta.
  replace (Split cutPage "<")
    with [""; "div itemtype=" +:+ DQUOTE +:+ "http://schema.org/Person" +:+ DQUOTE
                +:+ ">";
          "meta itemprop=" +:+ DQUOTE +:+ "name"] by (vm_compute; reflexivity).
  unfold lift. cbn [scanTags].
  replace (scanTag nick 0 "" _)
    with (@Val (TagScan * bool)
            ({| name := ""; email := ""; counter := 0; email_index := -1;
                found := false |}, false)) by (vm_compute; reflexivity).
  cbn [rbind fst snd].
  unfold scanTag at 1.
  replace (Contains _ "schema.org/Person") with true by (vm_compute; reflexivity).
  cbn [counter Z.ltb Z.compare].
  replace (Contains _ ("itemprop=" +:+ DQUOTE +:+ "name")) with false
    by (vm_compute; reflexivity).
  cbn [andb].
  replace (Contains _ "Email") with false by (vm_compute; reflexivity).
  destruct (Contains _ nick); cbn [rbind fst snd email_index Z.add Z.eqb];
    vm_compute; reflexivity.
Qed.

(** C1, at the failing inputs: when the request for the package page
    fails the resolver panics with a nil dereference, and on a page cut
    inside a name attribute it panics with an index out of range; in both
    cases nothing is returned and the process ends with status 2. *)
Theorem resolve_can_panic (lib : Library) :
  (fst (nickToNameAndEmail packagesDown "alice" start) = Panicked nil_dereference /\
   requests (snd (nickToNameAndEmail packagesDown "alice" start))
   = [TU_URL; DEV_URL; PKG_URL]) /\
  fst (nickToNameAndEmail cutPages "alice" start) = Panicked index_out_of_range /\
  exitStatus (fst (nickToNameAndEmail packagesDown "alice" start)) = Some 2 /\
  exitStatus (fst (nickToNameAndEmail cutPages "alice" start)) = Some 2.
Proof.
  assert (nickToNameAndEmail packagesDown "alice" start
          = (Panicked nil_dereference,
             after start ∅ [TU_URL; DEV_URL; PKG_URL])) as E1.
  { apply (resolve_listbox_panics packagesDown "alice" start
             "" "Could not find nick" "" "Could not find nick"
             "Get: connection refused"); reflexivity. }
  assert (fst (nickToNameAndEmail cutPages "alice" start)
          = Panicked index_out_of_range) as E2.
  { unfold nickToNameAndEmail, bind. rewrite makeCache_run.
    cbn [lookupCache]. unfold lookupCache. cbn [made start nickCache default].
    pose proof (cut_page_panics "alice" TU_URL (made start)) as Hcut.
    pose proof (nickToNameAndEmailWithUrl_frame cutPages "alice" TU_URL (made start))
      as [_ _].
    change (made start) with {| nickCache := Some ∅; stdout := ""; requests := [] |}
      in Hcut.
    cbn [mbind option_bind]. rewrite lookup_empty.
    destruct (nickToNameAndEmailWithUrl cutPages "alice" TU_URL _) as [r s1].
    cbn [fst] in Hcut. subst r. reflexivity. }
  rewrite E1, E2. repeat split.
Qed.

(** C2, at the failing input: sources A and B report no match and the
    request for the package list box fails.  The resolver does not go on
    to the fellows page: it panics, and the process ends. *)
Theorem failed_fetch_aborts_resolution (lib : Library) (w : World) (nick : string)
        (s : State) (x1 e1 x2 e2 msg : string) :
  cached s nick = None ->
  fst (nickToNameAndEmailWithUrl w nick TU_URL (made s)) = Val (x1, Some e1) ->
  fst (nickToNameAndEmailWithUrl w nick DEV_URL (sent (made s) TU_URL))
  = Val (x2, Some e2) ->
  http_get w (List.length (requests s) + 2) PKG_URL = NetError msg ->
  fst (nickToNameAndEmail w nick s) = Panicked nil_dereference /\
  requests (snd (nickToNameAndEmail w nick s))
  = (requests s ++ [TU_URL; DEV_URL; PKG_URL])%list /\
  cached (snd (nickToNameAndEmail w nick s)) nick = None /\
  exitStatus (fst (nickToNameAndEmail w nick s)) = Some 2.
Proof.
  intros Hmiss HA HB HC.
  rewrite (resolve_listbox_panics w nick s x1 e1 x2 e2 msg Hmiss HA HB HC).
  cbn [fst snd]. repeat split. rewrite cached_after.
  unfold cached in Hmiss. destruct (nickCache s); [exact Hmiss | apply lookup_empty].
Qed.

Lemma failed_fetch_aborts_resolution_witness :
  fst (nickToNameAndEmail (lib := plainLibrary) packagesDown "alice" start)
  = Panicked nil_dereference.
Proof.
  exact (proj1 (failed_fetch_aborts_resolution plainLibrary packagesDown "alice" start
                  "" "Could not find nick" "" "Could not find nick"
                  "Get: connection refused" eq_refl eq_refl eq_refl eq_refl)).
Defined.

(** ** The changelog assembler *)

(** The slice of [outputLog] is made, or the call ends there. *)
Lemma makeStrings_room (w : World) (n : Z) :
  roomFor w n = true -> makeStrings w (abs n) = Val tt.
Proof.
  unfold roomFor, makeStrings. intros H.
  apply andb_prop in H as [H Hmem]. apply andb_prop in H as [Hpos Hcap].
  apply Z.leb_le in Hpos, Hmem. apply Z.ltb_lt in Hcap.
  assert ((abs n <? 0) = false) as -> by (apply Z.ltb_ge; lia).
  assert ((maxAlloc <? stringSize * abs n) = false) as -> by (apply Z.ltb_ge; lia).
  assert ((memory w <? abs n) = false) as -> by (apply Z.ltb_ge; lia).
  reflexivity.
Qed.

Lemma makeStrings_cases (w : World) (cap : Z) :
  makeStrings w cap = Val tt \/ exists msg, makeStrings w cap = Panicked msg.
Proof.
  unfold makeStrings.
  destruct ((cap <? 0) || (maxAlloc <? stringSize * cap)); [right; eauto|].
  destruct (memory w <? cap); [right; eauto | now left].
Qed.

Lemma outputLog_made {lib : Library} (w : World) (n : Z) (s : State) :
  makeStrings w (abs n) = Val tt ->
  outputLog w n s
  = (r <- getSvnLog w n ;;
     match snd r with
     | Some _ => lift (Exited 1)
     | None =>
       g <- outputEntries w (Entries (fst r))
              {| first := true; msgitems := []; prevdate := ""; prevname := "";
                 prevheader := "" |} ;;
       if 0 <? Z.of_nat (List.length (msgitems g))
       then printAll (reversed (msgitems g)) ;;; Println ""
       else ret tt
     end) s.
Proof. intros H. unfold outputLog. unfold bind at 1. unfold lift. now rewrite H. Qed.

Lemma outputLog_not_made {lib : Library} (w : World) (n : Z) (s : State)
      (msg : string) :
  makeStrings w (abs n) = Panicked msg -> outputLog w n s = (Panicked msg, s).
Proof. intros H. unfold outputLog. unfold bind at 1. unfold lift. now rewrite H. Qed.

(** C9: when svn succeeds and its output does not parse, [getSvnLog]
    prints the error of [xml.Unmarshal] to standard output and returns no
    entries and a nil error; [outputLog], which has made its slice before
    svn is run, then prints nothing more and returns, so the process ends
    with status 0. *)
Theorem invalid_xml_is_silent_success (lib : Library) (w : World) (n : Z) (s : State)
        (xmlbytes e : string) (partial : LogEntries) :
  roomFor w n = true ->
  getSvnLogXMLbytes w n = (xmlbytes, None) ->
  xml_Unmarshal xmlbytes = (partial, Some e) ->
  getSvnLog w n s = (Val ({| Entries := [] |}, None), printed s ("error: " +:+ e)) /\
  outputLog w n s = (Val tt, printed s ("error: " +:+ e)) /\
  exitStatus (fst (outputLog w n s)) = Some 0.
Proof.
  intros Hroom Hsvn Hxml.
  assert (getSvnLog w n s
          = (Val ({| Entries := [] |}, None), printed s ("error: " +:+ e))) as Hlog.
  { unfold getSvnLog. rewrite Hsvn, Hxml. reflexivity. }
  split; [exact Hlog|].
  assert (outputLog w n s = (Val tt, printed s ("error: " +:+ e))) as Hout.
  { rewrite (outputLog_made w n s (makeStrings_room w n Hroom)).
    unfold bind. rewrite Hlog. reflexivity. }
  rewrite Hout. split; reflexivity.
Qed.

Lemma invalid_xml_is_silent_success_witness :
  outputLog (lib := plainLibrary) emptyPages 3 start
  = (Val tt, printed start "error: EOF").
Proof.
  exact (proj1 (proj2 (invalid_xml_is_silent_success plainLibrary emptyPages 3 start
                         "" "EOF" {| Entries := [] |} eq_refl eq_refl eq_refl))).
Defined.

Lemma reversed_rev (l : list string) : reversed l = rev l.
Proof.
  unfold reversed.
  set (f := fun i : nat =>
              nth (Z.to_nat (Z.of_nat (List.length l) - 1 - Z.of_nat i)) l "").
  apply (nth_ext _ _ (f 0%nat) "").
  - now rewrite length_map, length_seq, length_rev.
  - intros n Hn. rewrite length_map, length_seq in Hn.
    rewrite map_nth, seq_nth by exact Hn. cbn [Nat.add].
    rewrite rev_nth by exact Hn.
    unfold f. f_equal. lia.
Qed.

Lemma prettyDate_returns (date : string) : exists day, prettyDate date = Val day.
Proof. apply index_first, Split_aux_nonempty. Qed.

(** A message with exactly one empty line loses it, and one in which
    [strings.Count] finds no pair of newlines, or more than one, is only
    indented. *)
Lemma single_blank_line_removed (msg : string) :
  blankLines (leadStar +:+ msg) = 1%nat ->
  blankLines (Replace (leadStar +:+ msg) (LF +:+ LF) LF 1) = 0%nat /\
  formatMsg msg
  = Replace (Replace (leadStar +:+ msg) (LF +:+ LF) LF 1) LF (LF +:+ "      ") (-1).
Proof.
  intros H. destruct (one_blank_line _ H) as [Hcount Hblank].
  split; [exact Hblank|]. unfold formatMsg. now rewrite Hcount.
Qed.

Lemma other_counts_only_indented (msg : string) :
  Count (leadStar +:+ msg) (LF +:+ LF) <> 1 ->
  formatMsg msg = Replace (leadStar +:+ msg) LF (LF +:+ "      ") (-1).
Proof.
  intros H. unfold formatMsg.
  destruct (Z.eqb_spec (Count (leadStar +:+ msg) (LF +:+ LF)) 1); [contradiction|].
  reflexivity.
Qed.

(** C8, at the failing input: the message [twoBlankLines] has two empty
    lines; Go's [strings.Count] finds one non-overlapping pair of
    newlines in it, so the program removes one of the two empty lines and
    a single one is left, now holding the continuation indent. *)
Theorem two_blank_lines_lose_one :
  TrimSpace (Msg twoBlankLinesEntry) = twoBlankLines /\
  blankLines (leadStar +:+ twoBlankLines) = 2%nat /\
  Count (leadStar +:+ twoBlankLines) (LF +:+ LF) = 1 /\
  formatMsg twoBlankLines
  = "    * fix" +:+ LF +:+ "      " +:+ LF +:+ "      details" /\
  formatMsg twoBlankLines
  <> Replace (leadStar +:+ twoBlankLines) LF (LF +:+ "      ") (-1) /\
  outputLog (lib := twoBlankLinesLibrary) emptyPages 1 start
  = (Val tt,
     printed (snd (nickToNameAndEmail (lib := twoBlankLinesLibrary) emptyPages
                     "alice" start))
       ("2024-01-01 alice" +:+ LF +:+
        "    * fix" +:+ LF +:+ "      " +:+ LF +:+ "      details" +:+ LF +:+
        LF)).
Proof. repeat split; vm_compute; congruence. Qed.

Section Blind.
Context {lib : Library}.
Variable w : World.

Lemma blind_ret {A : Type} (a : A) : stdout_blind (ret a).
Proof. intros s text. reflexivity. Qed.

Lemma blind_lift {A : Type} (r : result A) : stdout_blind (lift r).
Proof. intros s text. reflexivity. Qed.

Lemma blind_bind {A B : Type} (m : M A) (f : A -> M B) :
  stdout_blind m -> (forall a, stdout_blind (f a)) -> stdout_blind (bind m f).
Proof.
  intros Hm Hf s text. unfold bind. rewrite Hm.
  destruct (m s) as [[a|msg|code|] s']; cbn [fst snd]; try reflexivity.
  apply Hf.
Qed.

Lemma blind_Get (url : string) : stdout_blind (Get w url).
Proof. intros s text. reflexivity. Qed.

Lemma blind_makeCache : stdout_blind makeCache.
Proof. intros [[c|] out reqs] text; reflexivity. Qed.

Lemma blind_lookupCache (nick : string) : stdout_blind (lookupCache nick).
Proof. intros s text. reflexivity. Qed.

Lemma blind_storeCache (nick value : string) : stdout_blind (storeCache nick value).
Proof. intros [[c|] out reqs] text; reflexivity. Qed.

Ltac blind :=
  repeat first
    [ apply blind_ret | apply blind_lift | apply blind_Get | apply blind_makeCache
    | apply blind_lookupCache | apply blind_storeCache
    | apply blind_bind; [|intros ?]
    | match goal with
      | |- stdout_blind (match ?x with _ => _ end) => destruct x
      | |- stdout_blind (if ?x then _ else _) => destruct x
      end ].

Lemma blind_nickToNameAndEmailWithUrl (nick url : string) :
  stdout_blind (nickToNameAndEmailWithUrl w nick url).
Proof. unfold nickToNameAndEmailWithUrl. blind. Qed.

Lemma blind_getWebPageTokenizer (url : string) :
  stdout_blind (getWebPageTokenizer w url).
Proof. unfold getWebPageTokenizer. blind. Qed.

Lemma blind_nickToNameFromListBox (nick url : string) :
  stdout_blind (nickToNameFromListBox w nick url).
Proof.
  unfold nickToNameFromListBox.
  apply blind_bind; [apply blind_getWebPageTokenizer|].
  intros [[t|] [[]|]]; unfold deferClose, panic; cbn [fst snd]; blind.
Qed.

Lemma blind_nameToEmailWithUrl (fullname url : string) :
  stdout_blind (nameToEmailWithUrl w fullname url).
Proof.
  unfold nameToEmailWithUrl.
  apply blind_bind; [apply blind_getWebPageTokenizer|].
  intros [[t|] [[]|]]; unfold deferClose, panic; cbn [fst snd]; blind.
Qed.

Lemma blind_nickToNameAndEmail (nick : string) :
  stdout_blind (nickToNameAndEmail w nick).
Proof.
  unfold nickToNameAndEmail.
  repeat first
    [ apply blind_nickToNameAndEmailWithUrl | apply blind_nickToNameFromListBox
    | apply blind_nameToEmailWithUrl
    | apply blind_ret | apply blind_makeCache | apply blind_lookupCache
    | apply blind_storeCache
    | apply blind_bind; [|intros ?]
    | match goal with
      | |- stdout_blind (match ?x with _ => _ end) => destruct x
      end ].
Qed.

Lemma resolve_after_print (nick v text : string) (s s' : State) :
  nickToNameAndEmail w nick s = (Val v, s') ->
  nickToNameAndEmail w nick (printed s text) = (Val v, printed s' text).
Proof. intros H. rewrite blind_nickToNameAndEmail, H. reflexivity. Qed.

End Blind.

Lemma append_assoc (a b c : string) : (a +:+ b) +:+ c = a +:+ (b +:+ c).
Proof.
  induction a as [|x a IH]; [reflexivity|].
  change (String x ((a +:+ b) +:+ c) = String x (a +:+ (b +:+ c))).
  now rewrite IH.
Qed.

Lemma append_empty_r (a : string) : a +:+ "" = a.
Proof.
  induction a as [|x a IH]; [reflexivity|].
  change (String x (a +:+ "") = String x a). now rewrite IH.
Qed.

Lemma printed_printed (s : State) (a b : string) :
  printed (printed s a) b = printed s (a +:+ b).
Proof.
  unfold printed. cbn [nickCache stdout requests]. now rewrite append_assoc.
Qed.

Lemma printed_nothing (s : State) : printed s "" = s.
Proof. destruct s. unfold printed. cbn. now rewrite append_empty_r. Qed.

Lemma Println_run (x : string) (s : State) :
  Println x s = (Val tt, printed s (x +:+ LF)).
Proof. reflexivity. Qed.

Lemma printAll_run (l : list string) (s : State) :
  printAll l s = (Val tt, printed s (lines l)).
Proof.
  revert s; induction l as [|x l IH]; intros s; cbn [printAll lines fold_right].
  - unfold ret. now rewrite printed_nothing.
  - unfold bind. rewrite Println_run, IH, printed_printed.
    now rewrite append_assoc.
Qed.

Section Rounds.
Context {lib : Library}.
Variable w : World.

Lemma outputEntry_run (logentry : LogEntry) (g : Gather) (s s1 : State)
      (date name : string) :
  prettyDate (Date logentry) = Val date ->
  nickToNameAndEmail w (Author logentry) s = (Val name, s1) ->
  outputEntry w logentry g s
  = (Val (roundGather date name (TrimSpace (Msg logentry)) g),
     printed s1 (roundOutput date name (TrimSpace (Msg logentry)) g)).
Proof.
  intros Hdate Hname.
  unfold outputEntry, roundGather, roundOutput, flushes.
  rewrite Hdate. unfold bind at 1. unfold lift. unfold bind at 1. rewrite Hname.
  destruct (eqs (TrimSpace (Msg logentry)) "").
  { unfold ret. now rewrite printed_nothing. }
  destruct (negb (eqs date (prevdate g)) || negb (eqs name (prevname g)));
    destruct (0 <? Z.of_nat (List.length (msgitems g)));
    destruct (eqs (date +:+ " " +:+ name) (prevheader g)) eqn:Eh;
    destruct (first g) eqn:Ef;
    cbn [andb negb]; unfold bind, ret;
    rewrite ?printAll_run; cbn [first prevheader msgitems];
    rewrite ?Eh, ?Ef; cbn [andb negb];
    rewrite ?Println_run, ?printed_printed, ?printed_nothing;
    rewrite ?append_assoc, ?append_empty_r; reflexivity.
Qed.

End Rounds.

Section Grouping.
Context {lib : Library}.
Variable w : World.

Lemma outputEntries_cons (logentry : LogEntry) (rest : list LogEntry) (g g' : Gather)
      (s s' : State) :
  outputEntry w logentry g s = (Val g', s') ->
  outputEntries w (logentry :: rest) g s = outputEntries w rest g' s'.
Proof. intros H. cbn [outputEntries]. unfold bind. now rewrite H. Qed.

Lemma cached_printed (s : State) (text nick : string) :
  cached (printed s text) nick = cached s nick.
Proof. reflexivity. Qed.

(** C5: for the three entries (2024-01-01, alice, msgA), (2024-01-01,
    alice, msgB), (2024-01-02, bob, msgC) in this order, whatever the two
    handles resolve to, the assembler, which has made its slice before the
    entries are read, writes one header for 2024-01-01
    and alice, then msgB, then msgA, then, after an empty line, the header
    for 2024-01-02 and bob, then msgC and a closing empty line. *)
Theorem grouping_example (n : Z) (s s1 s2 : State) (alice bob : string) :
  roomFor w n = true ->
  xml_Unmarshal (fst (getSvnLogXMLbytes w n)) = ({| Entries := threeEntries |}, None) ->
  nickToNameAndEmail w "alice" s = (Val alice, s1) ->
  nickToNameAndEmail w "bob" s1 = (Val bob, s2) ->
  outputLog w n s
  = (Val tt,
     printed s2 ("2024-01-01 " +:+ alice +:+ LF +:+
                 "    * msgB" +:+ LF +:+
                 "    * msgA" +:+ LF +:+
                 LF +:+ "2024-01-02 " +:+ bob +:+ LF +:+
                 "    * msgC" +:+ LF +:+
                 LF)).
Proof.
  intros Hroom Hxml Halice Hbob.
  pose proof (returned_is_cached w "alice" alice s s1 Halice) as Hcached.
  set (g0 := {| first := true; msgitems := []; prevdate := ""; prevname := "";
                prevheader := "" |}).
  set (g1 := {| first := true; msgitems := ["    * msgA"];
                prevdate := "2024-01-01"; prevname := alice;
                prevheader := "2024-01-01 " +:+ alice |}).
  set (g2 := {| first := true; msgitems := ["    * msgA"; "    * msgB"];
                prevdate := "2024-01-01"; prevname := alice;
                prevheader := "2024-01-01 " +:+ alice |}).
  set (g3 := {| first := false; msgitems := ["    * msgC"];
                prevdate := "2024-01-02"; prevname := bob;
                prevheader := "2024-01-02 " +:+ bob |}).
  set (o1 := "2024-01-01 " +:+ alice +:+ LF).
  set (o3 := "    * msgB" +:+ LF +:+ "    * msgA" +:+ LF +:+
             LF +:+ "2024-01-02 " +:+ bob +:+ LF).
  assert (roundGather "2024-01-01" alice (TrimSpace (Msg entryA)) g0 = g1) as G1
    by reflexivity.
  assert (roundOutput "2024-01-01" alice (TrimSpace (Msg entryA)) g0 = o1) as O1
    by reflexivity.
  assert (roundGather "2024-01-01" alice (TrimSpace (Msg entryB)) g1 = g2) as G2.
  { unfold roundGather, flushes, g1, g2. cbn [prevdate prevname msgitems first].
    unfold eqs. rewrite !String.eqb_refl. reflexivity. }
  assert (roundOutput "2024-01-01" alice (TrimSpace (Msg entryB)) g1 = "") as O2.
  { unfold roundOutput, flushes, g1. cbn [prevdate prevname msgitems first prevheader].
    unfold eqs. rewrite !String.eqb_refl.
    change ("2024-01-01" +:+ " " +:+ alice) with ("2024-01-01 " +:+ alice).
    rewrite ?String.eqb_refl. reflexivity. }
  assert (roundGather "2024-01-02" bob (TrimSpace (Msg entryC)) g2 = g3) as G3
    by reflexivity.
  assert (roundOutput "2024-01-02" bob (TrimSpace (Msg entryC)) g2 = o3) as O3
    by reflexivity.
  assert (outputEntries w threeEntries g0 s = (Val g3, printed s2 (o1 +:+ o3))) as Hloop.
  { unfold threeEntries.
    rewrite (outputEntries_cons entryA _ g0 g1 s (printed s1 o1)).
    2: { rewrite (outputEntry_run w entryA g0 s s1 "2024-01-01" alice eq_refl Halice).
         now rewrite G1, O1. }
    rewrite (outputEntries_cons entryB _ g1 g2 (printed s1 o1) (printed s1 o1)).
    2: { rewrite (outputEntry_run w entryB g1 (printed s1 o1) (printed s1 o1)
                    "2024-01-01" alice eq_refl).
         - now rewrite G2, O2, printed_nothing.
         - apply resolve_hit. exact Hcached. }
    rewrite (outputEntries_cons entryC _ g2 g3 (printed s1 o1) (printed s2 (o1 +:+ o3))).
    2: { rewrite (outputEntry_run w entryC g2 (printed s1 o1) (printed s2 o1)
                    "2024-01-02" bob eq_refl).
         - now rewrite G3, O3, printed_printed.
         - apply resolve_after_print. exact Hbob. }
    reflexivity. }
  rewrite (outputLog_made w n s (makeStrings_room w n Hroom)).
  unfold getSvnLog.
  destruct (getSvnLogXMLbytes w n) as [xmlbytes err]. cbn [fst] in Hxml.
  rewrite Hxml. unfold bind at 1. unfold ret at 1. cbn [snd fst Entries].
  unfold bind at 1. fold g0. rewrite Hloop.
  change (0 <? Z.of_nat (List.length (msgitems g3))) with true. cbv iota.
  unfold bind. rewrite printAll_run. rewrite Println_run, !printed_printed.
  unfold g3, o1, o3. f_equal. f_equal.
  change (lines (reversed (msgitems _))) with ("    * msgC" +:+ LF).
  rewrite !append_assoc. reflexivity.
Qed.
End Grouping.

Lemma grouping_example_witness :
  stdout (snd (outputLog (lib := threeEntriesLibrary) emptyPages 3 start))
  = "2024-01-01 alice" +:+ LF +:+ "    * msgB" +:+ LF +:+ "    * msgA" +:+ LF +:+
    LF +:+ "2024-01-02 bob" +:+ LF +:+ "    * msgC" +:+ LF +:+ LF.
Proof.
  pose (s1 := snd (nickToNameAndEmail (lib := threeEntriesLibrary) emptyPages
                     "alice" start)).
  pose (s2 := snd (nickToNameAndEmail (lib := threeEntriesLibrary) emptyPages
                     "bob" s1)).
  assert (nickToNameAndEmail (lib := threeEntriesLibrary) emptyPages "alice" start
          = (Val "alice", s1)) as Ha by (vm_compute; reflexivity).
  assert (nickToNameAndEmail (lib := threeEntriesLibrary) emptyPages "bob" s1
          = (Val "bob", s2)) as Hb by (vm_compute; reflexivity).
  rewrite (grouping_example (lib := threeEntriesLibrary) emptyPages 3 start s1 s2
             "alice" "bob" eq_refl eq_refl Ha Hb).
  reflexivity.
Defined.
(** ** Further properties: strings and runes *)

Module MoreSpec.
Import GoStrings Archlog.

(** Every byte of [s] satisfies [P]. *)
Fixpoint allBytes (P : Z -> bool) (s : string) : bool :=
  match s with
  | EmptyString => true
  | String c s' => P (byte_val c) && allBytes P s'
  end.

Definition isLetter (r : Z) : bool :=
  ((65 <=? r) && (r <=? 90)) || ((97 <=? r) && (r <=? 122)).
Definition isLower (r : Z) : bool := (97 <=? r) && (r <=? 122).
Definition isLetterOrUnderscore (r : Z) : bool := isLetter r || (r =? 95).
Definition isLowerOrUnderscore (r : Z) : bool := isLower r || (r =? 95).

(** [x] occurs in [s]. *)
Definition occurs (x s : string) : Prop :=
  exists pre post : string, s = pre +:+ x +:+ post.

(** An address as the scans leave it. *)
Definition hasAt (email : string) : Prop := (0 < count_char "@" email)%nat.

End MoreSpec.
Import MoreSpec.

Lemma mapRunes_cases (r : Z) :
  (isLetter r = true /\ mapRunes r = r) \/
  In (mapRunes r) [111; 114; 97; 101; 95].
Proof.
  unfold mapRunes, isLetter.
  destruct (((65 <=? r) && (r <=? 90)) || ((97 <=? r) && (r <=? 122)));
    [left; split; reflexivity|].
  right.
  repeat match goal with
         | |- context [if ?b then _ else _] => destruct b
         end; cbn; auto 10.
Qed.

Lemma mapRunes_alphabet (r : Z) : isLetterOrUnderscore (mapRunes r) = true.
Proof.
  destruct (mapRunes_cases r) as [[Hl Hr]|Hin].
  - rewrite Hr. unfold isLetterOrUnderscore. now rewrite Hl.
  - cbn [In] in Hin.
    destruct Hin as [E|[E|[E|[E|[E|[]]]]]]; rewrite <- E; reflexivity.
Qed.

(** X1: [mapRunes] sends every rune to an ASCII letter or to the
    underscore, leaves the ASCII letters as they are, and applying it
    twice is applying it once. *)
Theorem mapRunes_range (r : Z) :
  isLetterOrUnderscore (mapRunes r) = true /\
  (isLetter r = true -> mapRunes r = r) /\
  mapRunes (mapRunes r) = mapRunes r.
Proof.
  split; [apply mapRunes_alphabet|]. split.
  - intros Hl. unfold mapRunes. unfold isLetter in Hl. now rewrite Hl.
  - destruct (mapRunes_cases r) as [[Hl Hr]|Hin].
    + now rewrite !Hr.
    + cbn [In] in Hin.
      destruct Hin as [E|[E|[E|[E|[E|[]]]]]]; rewrite <- E; reflexivity.
Qed.

Lemma mapRunes_range_witness : mapRunes 74 = 74.
Proof. apply (proj1 (proj2 (mapRunes_range 74))). reflexivity. Defined.

(** *** The alphabet of a nickname *)

Lemma byte_val_range (c : ascii) : 0 <= byte_val c < 256.
Proof.
  unfold byte_val. pose proof (N_ascii_bounded c) as H. lia.
Qed.

Lemma byte_val_of (r : Z) : 0 <= r < 256 -> byte_val (byte_of r) = r.
Proof.
  intros H. unfold byte_val, byte_of.
  rewrite N_ascii_embedding by lia. lia.
Qed.

Lemma byte_of_val (c : ascii) : byte_of (byte_val c) = c.
Proof. unfold byte_val, byte_of. now rewrite N2Z.id, ascii_N_embedding. Qed.

Lemma EncodeRune_ascii (r : Z) :
  0 <= r < 128 -> EncodeRune r = String (byte_of r) "".
Proof.
  intros H. unfold EncodeRune.
  destruct (Z.leb_spec 0 r); [|lia]. destruct (Z.ltb_spec r 128); [|lia].
  reflexivity.
Qed.

Lemma Decode_ascii (c : ascii) (s : string) :
  byte_val c < 128 -> DecodeRuneInString (String c s) = (byte_val c, 1%nat).
Proof.
  intros H. unfold DecodeRuneInString, RuneSelf.
  destruct (Z.ltb_spec (byte_val c) 128); [reflexivity | lia].
Qed.

Lemma allBytes_app (P : Z -> bool) (a b : string) :
  allBytes P (a +:+ b) = allBytes P a && allBytes P b.
Proof.
  induction a as [|c a IH]; [reflexivity|].
  change (String c a +:+ b) with (String c (a +:+ b)).
  cbn [allBytes]. rewrite IH. now rewrite andb_assoc.
Qed.

Lemma isLetterOrUnderscore_ascii (r : Z) :
  isLetterOrUnderscore r = true -> 0 <= r < 128.
Proof. unfold isLetterOrUnderscore, isLetter. lia. Qed.

Lemma Map_mapRunes_alphabet (s : string) (skip : nat) :
  allBytes isLetterOrUnderscore (Map_aux mapRunes s skip) = true.
Proof.
  revert skip; induction s as [|c s IH]; intros skip; [reflexivity|].
  cbn [Map_aux]. destruct skip as [|k]; [|apply IH].
  destruct (DecodeRuneInString (String c s)) as [r size].
  pose proof (mapRunes_alphabet r) as Hr.
  pose proof (isLetterOrUnderscore_ascii _ Hr) as Hb.
  destruct (Z.leb_spec 0 (mapRunes r)); [|lia].
  rewrite EncodeRune_ascii by exact Hb.
  change (String ?x "" +:+ ?y) with (String x y).
  cbn [allBytes]. rewrite byte_val_of by lia. now rewrite Hr, IH.
Qed.

Lemma asciiLower_alphabet (r : Z) :
  isLetterOrUnderscore r = true -> isLowerOrUnderscore (asciiLower r) = true.
Proof.
  unfold isLetterOrUnderscore, isLowerOrUnderscore, isLetter, isLower, asciiLower.
  intros H.
  destruct (Z.leb_spec 65 r), (Z.leb_spec r 90); cbn [andb]; lia.
Qed.

Lemma ToLower_alphabet (lower : Z -> Z) (s : string) :
  allBytes isLetterOrUnderscore s = true ->
  allBytes isLowerOrUnderscore (ToLower lower s) = true.
Proof.
  unfold ToLower, Map.
  induction s as [|c s IH]; [reflexivity|].
  cbn [allBytes Map_aux]. intros H. apply andb_true_iff in H as [Hc Hs].
  pose proof (isLetterOrUnderscore_ascii _ Hc) as Hb.
  rewrite Decode_ascii by lia.
  assert (lowerRune lower (byte_val c) = asciiLower (byte_val c)) as ->.
  { unfold lowerRune, RuneSelf.
    destruct (Z.ltb_spec (byte_val c) 128); [reflexivity | lia]. }
  pose proof (asciiLower_alphabet _ Hc) as Hl.
  assert (0 <= asciiLower (byte_val c) < 128) as Hr
    by (unfold isLowerOrUnderscore, isLower in Hl; lia).
  destruct (Z.leb_spec 0 (asciiLower (byte_val c))); [|lia].
  rewrite EncodeRune_ascii by exact Hr.
  change (String ?x "" +:+ ?y) with (String x y).
  cbn [allBytes Nat.sub]. rewrite byte_val_of by lia. rewrite Hl. now apply IH.
Qed.

Lemma strip_underscores (s : string) (n : Z) :
  n < 0 ->
  allBytes isLowerOrUnderscore s = true ->
  allBytes isLower (Replace_aux s "_" "" 0 n) = true.
Proof.
  revert n; induction s as [|c s IH]; intros n Hn; [reflexivity|].
  cbn [allBytes Replace_aux]. intros H. apply andb_true_iff in H as [Hc Hs].
  destruct (Z.eqb_spec n 0); [lia|].
  rewrite prefix_char.
  change (String.length "_" - 1)%nat with 0%nat.
  destruct (Ascii.eqb_spec "_" c) as [<-|Hne].
  - change ("" +:+ ?y) with y. apply IH; [lia | exact Hs].
  - cbn [allBytes]. rewrite (IH n Hn Hs), andb_true_r.
    unfold isLowerOrUnderscore in Hc. apply orb_true_iff in Hc as [Hc|Hc];
      [exact Hc|].
    exfalso. apply Hne. apply Z.eqb_eq in Hc.
    rewrite <- (byte_of_val c), Hc. reflexivity.
Qed.

(** X2: a nickname derived from a name that has a space is made of the
    lowercase ASCII letters only: no digit, no underscore, no capital, no
    byte above 127. *)
Theorem generateNick_alphabet (lib : Library) (name nick : string) :
  (0 < count_char " " name)%nat ->
  generateNick name = Val nick ->
  allBytes isLower nick = true.
Proof.
  intros Hspace. unfold generateNick.
  destruct (Z.eqb_spec (Index name " ") (-1)) as [E|_].
  { apply Index_char_none in E. lia. }
  match goal with
  | |- rbind ?x _ = _ -> _ => destruct x as [names| | |]
  end; cbn [rbind]; try discriminate.
  destruct (index names 0) as [firstname| | |]; cbn [rbind]; try discriminate.
  match goal with
  | |- rbind ?x _ = _ -> _ => destruct x as [lastname| | |]
  end; cbn [rbind]; try discriminate.
  destruct (byte_at firstname 0) as [first|]; [|discriminate].
  intros [= <-]. unfold Replace.
  apply strip_underscores; [lia|].
  apply ToLower_alphabet. apply Map_mapRunes_alphabet.
Qed.

Lemma generateNick_alphabet_witness :
  allBytes isLower "jboe" = true.
Proof.
  apply (generateNick_alphabet plainLibrary "Jane Bøe" "jboe");
    [vm_compute; lia | reflexivity].
Defined.

(** *** Splitting at a character *)

Lemma Split_char_cons (c d : ascii) (s : string) :
  Split_aux (String d s) (String c "") 0
  = if Ascii.eqb c d then "" :: Split_aux s (String c "") 0
    else match Split_aux s (String c "") 0 with
         | p :: ps => String d p :: ps
         | [] => [String d ""]
         end.
Proof. cbn [Split_aux]. now rewrite prefix_char. Qed.

(** The first piece ends at the first separator. *)
Lemma Split_char_head (c : ascii) (s : string) :
  exists (first : string) (rest : list string),
    Split s (String c "") = first :: rest /\
    count_char c first = 0%nat /\
    ((s = first /\ rest = []) \/ exists tail, s = first +:+ String c tail) /\
    (forall d s', s = String d s' -> d <> c -> exists p, first = String d p).
Proof.
  unfold Split. induction s as [|d s IH].
  - exists "", []. repeat split; [now left | discriminate].
  - rewrite Split_char_cons.
    destruct (Ascii.eqb_spec c d) as [<-|Hne].
    + exists "", (Split_aux s (String c "") 0). repeat split.
      * right. now exists s.
      * intros d s' [= <- _] H. now elim H.
    + destruct IH as (first & rest & E & Hc & Hs & _). rewrite E.
      exists (String d first), rest. repeat split.
      * cbn [count_char]. apply Ascii.eqb_neq in Hne. now rewrite Hne.
      * destruct Hs as [[-> ->]|[tail ->]]; [now left | right; now exists tail].
      * intros d' s' [= <- _] _. now exists first.
Qed.

(** X3: [prettyDate] never panics.  It returns the text before the first
    "T" of the date, and the whole date when there is no "T". *)
Theorem prettyDate_day (date : string) :
  exists day : string,
    prettyDate date = Val day /\
    count_char "T" day = 0%nat /\
    ((date = day /\ count_char "T" date = 0%nat) \/
     exists time : string, date = day +:+ "T" +:+ time).
Proof.
  unfold prettyDate.
  destruct (Split_char_head "T" date) as (first & rest & E & Hc & Hs & _).
  exists first. rewrite E. repeat split; [exact Hc|].
  destruct Hs as [[-> _]|[tail ->]]; [left; now split | right; now exists tail].
Qed.

(** X4: for a name that does not begin with a space and has no "(" or
    no ")", [generateNick] returns: the panics are confined to names with
    an empty first token or with parentheses. *)
Theorem generateNick_returns (lib : Library) (d : ascii) (rest : string) :
  d <> " "%char ->
  count_char "(" (String d rest) = 0%nat \/ count_char ")" (String d rest) = 0%nat ->
  exists nick : string, generateNick (String d rest) = Val nick.
Proof.
  intros Hd Hparen. unfold generateNick.
  destruct (Index (String d rest) " " =? -1); [eauto|].
  assert (negb (Index (String d rest) "(" =? -1)
          && negb (Index (String d rest) ")" =? -1) = false) as ->.
  { apply andb_false_iff.
    destruct Hparen as [H|H]; apply Index_char_none in H; rewrite H; auto. }
  cbn [rbind].
  destruct (Split_char_head " " (String d rest)) as (first & others & E & _ & _ & Hf).
  rewrite E. destruct (Hf d rest eq_refl Hd) as [p ->].
  change (index (String d p :: others) 0) with (@Val string (String d p)).
  cbn [rbind].
  destruct (index_last (String d p :: others)) as [lastname ->]; [discriminate|].
  cbn [rbind]. change (byte_at (String d p) 0) with (Some (byte_val d)).
  eauto.
Qed.

Lemma generateNick_returns_witness :
  exists nick : string, generateNick (lib := plainLibrary) "Jane Doe" = Val nick.
Proof.
  apply (generateNick_returns plainLibrary "J" "ane Doe"); [discriminate|].
  left. reflexivity.
Defined.

(** *** Normal forms of an address *)

Lemma length_append (a b : string) :
  String.length (a +:+ b) = (String.length a + String.length b)%nat.
Proof.
  induction a as [|c a IH]; [reflexivity|].
  change (String c a +:+ b) with (String c (a +:+ b)). cbn. now rewrite IH.
Qed.

Lemma emailOfTag_cases (email : string) :
  (emailOfTag email = email /\
   (hasAt email \/ count_char "." email = 0%nat)) \/
  (count_char "@" email = 0%nat /\
   exists pre post : string,
     email = pre +:+ "." +:+ post /\ emailOfTag email = pre +:+ "@" +:+ post).
Proof.
  unfold emailOfTag, hasAt. rewrite !Contains_char.
  destruct (Nat.eqb_spec (count_char "@" email) 0%nat) as [Ha|Ha]; cbn [negb andb];
    [|left; split; [reflexivity | left; lia]].
  destruct (Nat.eqb_spec (count_char "." email) 0%nat) as [Hd|Hd]; cbn [negb];
    [left; split; [reflexivity | now right]|].
  right. split; [exact Ha|].
  destruct (Replace_first_char "." "@" email Hd) as (pre & post & E1 & _ & E2).
  now exists pre, post.
Qed.

Lemma emailOfLabel_cases (email : string) :
  (emailOfLabel email = email /\
   (hasAt email \/ (count_char "." email <= 1)%nat)) \/
  (count_char "@" email = 0%nat /\
   exists pre post : string,
     email = pre +:+ "." +:+ post /\ emailOfLabel email = pre +:+ "@" +:+ post).
Proof.
  unfold emailOfLabel, hasAt. rewrite Count_char.
  destruct (Z.eqb_spec (Index email "@") (-1)) as [Ha|Ha].
  - apply Index_char_none in Ha.
    destruct (Z.ltb_spec 1 (Z.of_nat (count_char "." email))) as [Hd|Hd].
    + right. split; [exact Ha|].
      destruct (Replace_first_char "." "@" email ltac:(lia))
        as (pre & post & E1 & _ & E2).
      now exists pre, post.
    + left. split; [reflexivity | right; lia].
  - left. split; [reflexivity|]. left.
    destruct (Nat.eq_dec (count_char "@" email) 0%nat) as [E|E]; [|lia].
    apply Index_char_none in E. contradiction.
Qed.

Lemma at_in_the_middle (pre post : string) : hasAt (pre +:+ "@" +:+ post).
Proof.
  unfold hasAt. rewrite count_char_append.
  change ("@" +:+ post) with (String "@" post). cbn [count_char].
  rewrite Ascii.eqb_refl. lia.
Qed.

Lemma one_byte_swapped (pre post : string) :
  String.length (pre +:+ "@" +:+ post) = String.length (pre +:+ "." +:+ post).
Proof. now rewrite !length_append. Qed.

(** X5: what the two normalizations leave.  An address that has an "@"
    is not touched; the result has the length of the input; normalizing a
    second time changes nothing; and the result of the tag scan's form has
    an "@" or no ".", that of the label scan's form an "@" or at most one
    ".". *)
Theorem email_normal_forms (email : string) :
  (hasAt email -> emailOfTag email = email /\ emailOfLabel email = email) /\
  (String.length (emailOfTag email) = String.length email /\
   String.length (emailOfLabel email) = String.length email) /\
  (emailOfTag (emailOfTag email) = emailOfTag email /\
   emailOfLabel (emailOfLabel email) = emailOfLabel email) /\
  (hasAt (emailOfTag email) \/ count_char "." (emailOfTag email) = 0%nat) /\
  (hasAt (emailOfLabel email) \/ (count_char "." (emailOfLabel email) <= 1)%nat).
Proof.
  assert (forall e, hasAt e -> emailOfTag e = e /\ emailOfLabel e = e) as Hkeep.
  { intros e He. unfold hasAt in He. split.
    - destruct (emailOfTag_cases e) as [[E _]|[E _]]; [exact E | lia].
    - destruct (emailOfLabel_cases e) as [[E _]|[E _]]; [exact E | lia]. }
  split; [apply Hkeep|].
  destruct (emailOfTag_cases email) as [[Et Pt]|[_ (p1 & q1 & E1 & Et)]];
    destruct (emailOfLabel_cases email) as [[El Pl]|[_ (p2 & q2 & E2 & El)]];
    rewrite ?Et, ?El.
  all: try pose proof (at_in_the_middle p1 q1) as H1.
  all: try pose proof (at_in_the_middle p2 q2) as H2.
  all: try rewrite (proj1 (Hkeep _ H1)).
  all: try rewrite (proj2 (Hkeep _ H2)).
  all: repeat split; auto.
  all: first [ rewrite E1 at 1; apply one_byte_swapped
             | rewrite E2 at 1; apply one_byte_swapped ].
Qed.

Lemma email_normal_forms_witness :
  emailOfTag "a@b.c.d" = "a@b.c.d" /\ emailOfLabel "a@b.c.d" = "a@b.c.d".
Proof.
  apply (proj1 (email_normal_forms "a@b.c.d")). unfold hasAt. vm_compute. lia.
Defined.

(** *** What a page must contain for the tag scan to match *)

Lemma prefix_occurs (x s : string) :
  String.prefix x s = true <-> exists post : string, s = x +:+ post.
Proof.
  revert s; induction x as [|a x IH]; intros s.
  - split; [intros _; now exists s | intros _; now destruct s].
  - destruct s as [|b s]; cbn [String.prefix].
    + split; [discriminate | intros [post H]; discriminate H].
    + destruct (ascii_dec a b) as [<-|Hne].
      * rewrite IH. split; intros [post H]; exists post.
        -- now rewrite H.
        -- now injection H.
      * split; [discriminate|]. intros [post H]. injection H as H1 _.
        now elim Hne.
Qed.

Lemma occurs_cons (x s : string) (c : ascii) :
  String.prefix x (String c s) = false ->
  (occurs x (String c s) <-> occurs x s).
Proof.
  intros Hp. split.
  - intros (pre & post & E). destruct pre as [|d pre].
    + assert (String.prefix x (String c s) = true) as Ht
        by (apply prefix_occurs; now exists post).
      congruence.
    + exists pre, post. now injection E.
  - intros (pre & post & ->). now exists (String c pre), post.
Qed.

Lemma Index_from_occurs (x s : string) (i : Z) :
  0 <= i -> (0 <= Index_from s x i <-> occurs x s).
Proof.
  revert i; induction s as [|c s IH]; intros i Hi; cbn [Index_from].
  - destruct (String.prefix x "") eqn:Hp.
    + split; [intros _ | lia]. apply prefix_occurs in Hp as [post E].
      now exists "", post.
    + split; [lia|]. intros (pre & post & E). exfalso.
      destruct pre; [|discriminate E].
      assert (String.prefix x "" = true) as Ht
        by (apply prefix_occurs; now exists post).
      congruence.
  - destruct (String.prefix x (String c s)) eqn:Hp.
    + split; [intros _ | lia]. apply prefix_occurs in Hp as [post E].
      now exists "", post.
    + rewrite (occurs_cons x s c Hp). apply IH. lia.
Qed.

Lemma Contains_occurs (s x : string) : Contains s x = true <-> occurs x s.
Proof.
  unfold Contains, Index. rewrite Z.leb_le. apply Index_from_occurs. lia.
Qed.

Lemma occurs_trans (x p s : string) : occurs x p -> occurs p s -> occurs x s.
Proof.
  intros (a & b & ->) (c & d & ->).
  exists (c +:+ a), (b +:+ d). now rewrite !append_assoc.
Qed.

(** Every piece of a split occurs in the text, the first one at its
    beginning. *)
Lemma Split_char_pieces (c : ascii) (s : string) :
  (exists first rest post,
      Split_aux s (String c "") 0 = first :: rest /\ s = first +:+ post) /\
  forall p, In p (Split_aux s (String c "") 0) -> occurs p s.
Proof.
  induction s as [|d s [(first & rest & post & E & Es) IH]].
  - split; [now exists "", [], ""|]. intros p [<-|[]]. now exists "", "".
  - rewrite Split_char_cons. destruct (Ascii.eqb c d).
    + split; [now exists "", (Split_aux s (String c "") 0), (String d s)|].
      intros p [<-|Hp]; [now exists "", (String d s)|].
      destruct (IH p Hp) as (a & b & ->). now exists (String d a), b.
    + rewrite E. split; [exists (String d first), rest, post; now rewrite Es at 1|].
      intros p [<-|Hp].
      * exists "", post. now rewrite Es at 1.
      * destruct (IH p) as (a & b & Hab); [rewrite E; now right|].
        rewrite Hab. now exists (String d a), b.
Qed.

Lemma tag_occurs (b tag x : string) :
  In tag (Split b "<") -> Contains tag x = true -> Contains b x = true.
Proof.
  intros Hin Hc. apply Contains_occurs. apply Contains_occurs in Hc.
  apply (occurs_trans x tag b Hc). now apply (proj2 (Split_char_pieces "<" b)).
Qed.

Definition marker : string := "schema.org/Person".

Definition startScan : TagScan :=
  {| name := ""; email := ""; counter := 0; email_index := -1; found := false |}.

(** Without a marker in sight the tag loop does nothing. *)
Lemma scanTags_idle (nick : string) (tags : list string) (i : Z) (st : TagScan) :
  (forall tag, In tag tags -> Contains tag marker = false) ->
  counter st <= 0 ->
  scanTags nick tags i st = Val st.
Proof.
  revert i; induction tags as [|tag tags IH]; intros i Hno Hc; [reflexivity|].
  cbn [scanTags]. unfold scanTag.
  fold marker. rewrite (Hno tag (or_introl eq_refl)).
  destruct (Z.ltb_spec 0 (counter st)); [lia|].
  cbn [rbind fst snd]. apply IH; [|exact Hc].
  intros t Ht. apply Hno. now right.
Qed.

(** What the tag loop has seen when it has found something. *)
Definition seen (nick b : string) (st : TagScan) : Prop :=
  (found st = true -> occurs nick b /\ occurs marker b) /\
  (0 < counter st -> occurs marker b) /\
  (hasAt (email st) \/ count_char "." (email st) = 0%nat).

Lemma emailOfTag_normal (e : string) :
  hasAt (emailOfTag e) \/ count_char "." (emailOfTag e) = 0%nat.
Proof.
  destruct (emailOfTag_cases e) as [[-> H]|[_ (p & q & _ & ->)]]; [exact H|].
  left. apply at_in_the_middle.
Qed.

Lemma scanTag_seen (nick b tag : string) (i : Z) (st st' : TagScan) (brk : bool) :
  occurs tag b -> seen nick b st ->
  scanTag nick i tag st = Val (st', brk) -> seen nick b st'.
Proof.
  intros Htag (Hf & Hc & He). unfold scanTag. fold marker.
  destruct (Contains tag marker) eqn:Hm.
  - apply Contains_occurs in Hm. pose proof (occurs_trans _ _ _ Hm Htag) as Hmb.
    cbn [counter name email email_index found].
    change (0 <? 30) with true. cbv iota.
    destruct (_ && _).
    + destruct (index _ 3); cbn [rbind]; try discriminate.
      intros [= <- _]. unfold seen. cbn. repeat split; auto; tauto.
    + destruct (Contains tag nick) eqn:Hn.
      * apply Contains_occurs in Hn. pose proof (occurs_trans _ _ _ Hn Htag).
        intros [= <- _]. unfold seen. cbn. repeat split; auto.
      * destruct (Contains tag "Email").
        -- intros [= <- _]. unfold seen. cbn. repeat split; auto; tauto.
        -- destruct (i =? email_index st).
           ++ destruct (index _ 1); cbn [rbind]; try discriminate.
              destruct (found st) eqn:Ef; intros [= <- _]; unfold seen; cbn;
                repeat split; auto; try tauto; apply emailOfTag_normal.
           ++ intros [= <- _]. unfold seen. cbn. repeat split; auto; tauto.
  - destruct (Z.ltb_spec 0 (counter st)) as [Hpos|Hpos];
      [|intros [= <- _]; unfold seen; auto].
    specialize (Hc Hpos).
    destruct (_ && _).
    + destruct (index _ 3); cbn [rbind]; try discriminate.
      intros [= <- _]. unfold seen. cbn. repeat split; auto; tauto.
    + destruct (Contains tag nick) eqn:Hn.
      * apply Contains_occurs in Hn. pose proof (occurs_trans _ _ _ Hn Htag).
        intros [= <- _]. unfold seen. cbn. repeat split; auto.
      * destruct (Contains tag "Email").
        -- intros [= <- _]. unfold seen. cbn. repeat split; auto; tauto.
        -- destruct (i =? email_index st).
           ++ destruct (index _ 1); cbn [rbind]; try discriminate.
              destruct (found st) eqn:Ef; intros [= <- _]; unfold seen; cbn;
                repeat split; auto; try tauto; apply emailOfTag_normal.
           ++ intros [= <- _]. unfold seen. cbn. repeat split; auto; tauto.
Qed.

Lemma scanTags_seen (nick b : string) (tags : list string) (i : Z)
      (st st' : TagScan) :
  (forall tag, In tag tags -> occurs tag b) -> seen nick b st ->
  scanTags nick tags i st = Val st' -> seen nick b st'.
Proof.
  revert i st; induction tags as [|tag tags IH]; intros i st Htags Hst;
    cbn [scanTags].
  - now intros [= <-].
  - destruct (scanTag nick i tag st) as [[st1 brk]| | |] eqn:E; cbn [rbind];
      try discriminate.
    pose proof (scanTag_seen nick b tag i st st1 brk
                  (Htags tag (or_introl eq_refl)) Hst E) as H1.
    cbn [fst snd]. destruct brk; [now intros [= <-]|].
    apply IH; [|exact H1]. intros t Ht. apply Htags. now right.
Qed.

Section TagScanProperties.
Variable w : World.

(** X6: a page in which "schema.org/Person" does not occur matches no
    handle: the tag scan reports "Could not find nick", whatever else the
    page holds, and does not panic. *)
Theorem page_without_person_block (nick url b : string) (s : State) :
  http_get w (List.length (requests s)) url = Page b None ->
  Contains b "schema.org/Person" = false ->
  nickToNameAndEmailWithUrl w nick url s
  = (Val ("", Some "Could not find nick"), sent s url).
Proof.
  intros Hget Hno. unfold nickToNameAndEmailWithUrl, bind.
  rewrite Get_run, Hget. unfold lift.
  rewrite scanTags_idle; [reflexivity| |cbn; lia].
  intros tag Hin. destruct (Contains tag marker) eqn:E; [|reflexivity].
  rewrite <- Hno. symmetry. now apply (tag_occurs b tag marker).
Qed.

(** X7: when the tag scan succeeds, the page was read whole, both
    "schema.org/Person" and the handle occur somewhere in its text (the
    handle is looked for by containment), and the result is a name
    followed by an address between "<" and ">" that has an "@" or no
    ".". *)
Theorem tag_scan_success (nick url text : string) (s s' : State) :
  nickToNameAndEmailWithUrl w nick url s = (Val (text, None), s') ->
  exists b name email : string,
    http_get w (List.length (requests s)) url = Page b None /\
    occurs "schema.org/Person" b /\ occurs nick b /\
    text = name +:+ " <" +:+ email +:+ ">" /\
    (hasAt email \/ count_char "." email = 0%nat).
Proof.
  unfold nickToNameAndEmailWithUrl, bind. rewrite Get_run.
  destruct (http_get w (List.length (requests s)) url) as [msg|b [msg|]];
    try discriminate.
  unfold lift.
  destruct (scanTags nick (Split b "<") 0 _) as [st| | |] eqn:E; try discriminate.
  destruct (found st) eqn:Ef; [|discriminate].
  intros [= <- _].
  assert (seen nick b st) as (Hf & _ & He).
  { apply (scanTags_seen nick b (Split b "<") 0 startScan st).
    - intros tag Hin. now apply (proj2 (Split_char_pieces "<" b)).
    - unfold seen, startScan. cbn. repeat split; try discriminate; try lia.
      all: now right.
    - exact E. }
  destruct (Hf Ef) as [Hn Hm].
  exists b, (name st), (email st). repeat split; auto.
Qed.

End TagScanProperties.

Lemma page_without_person_block_witness :
  nickToNameAndEmailWithUrl emptyPages "alice" TU_URL start
  = (Val ("", Some "Could not find nick"), sent start TU_URL).
Proof.
  apply (page_without_person_block emptyPages "alice" TU_URL "" start);
    reflexivity.
Defined.

Lemma tag_scan_success_witness :
  exists b name email : string,
    http_get onePerson 0 TU_URL = Page b None /\
    occurs "schema.org/Person" b /\ occurs "jdoe" b /\
    "Jane Doe <jane@example>" = name +:+ " <" +:+ email +:+ ">" /\
    (hasAt email \/ count_char "." email = 0%nat).
Proof.
  apply (tag_scan_success onePerson "jdoe" TU_URL "Jane Doe <jane@example>" start
           (sent start TU_URL)).
  vm_compute. reflexivity.
Defined.

(** ** Further properties: the token scans *)

Section TokenScanProperties.
Context {lib : Library}.
Variable w : World.

(** X8: [Skip] with a count of zero or less reads nothing and succeeds;
    a successful [Skip] of [n] has consumed at least [n] characters; and
    with fewer than [n] characters left it fails. *)
Theorem Skip_consumes (tokenizer : Scanner) (n : Z) :
  (n <= 0 -> Skip tokenizer n = (true, tokenizer)) /\
  (forall t', Skip tokenizer n = (true, t') ->
              (unread t' + Z.to_nat n <= unread tokenizer)%nat) /\
  ((unread tokenizer < Z.to_nat n)%nat -> fst (Skip tokenizer n) = false).
Proof.
  split; [|split].
  - intros Hn. unfold Skip. now replace (Z.to_nat n) with 0%nat by lia.
  - intros t'. apply Skip_unread.
  - intros Hlt. destruct (Skip tokenizer n) as [[|] t'] eqn:E; [|reflexivity].
    apply Skip_unread in E. lia.
Qed.

(** X9: each of the three page functions makes exactly one request, to
    the URL it is given, changes neither the cache nor standard output,
    and returns or panics: the token loops end on every page. *)
Theorem one_request_each (key url : string) (s : State) :
  (snd (nickToNameAndEmailWithUrl w key url s) = sent s url /\
   settled (fst (nickToNameAndEmailWithUrl w key url s))) /\
  (snd (nickToNameFromListBox w key url s) = sent s url /\
   settled (fst (nickToNameFromListBox w key url s))) /\
  (snd (nameToEmailWithUrl w key url s) = sent s url /\
   settled (fst (nameToEmailWithUrl w key url s))).
Proof.
  split; [apply nickToNameAndEmailWithUrl_frame|].
  split; [apply nickToNameFromListBox_frame | apply nameToEmailWithUrl_frame].
Qed.

End TokenScanProperties.

Lemma Skip_consumes_witness :
  fst (Skip (lib := plainLibrary) (GoScanner.Init "a") 3) = false.
Proof.
  apply (proj2 (proj2 (Skip_consumes (lib := plainLibrary) (GoScanner.Init "a") 3))).
  vm_compute. lia.
Defined.

(** ** Further properties: the token scans under Go's scanner *)

(** What a token scan of the program comes to: a panic when the request
    failed, and no match otherwise. *)
Definition noMatch (r : response) : result (string * error) :=
  match r with
  | NetError _ => Panicked nil_dereference
  | Page _ _ => Val ("", tokerror)
  end.

Section GoScannerProperties.
Variables (lower : Z -> Z) (unmarshal : string -> LogEntries * error).
Let go : Library := goLibrary lower unmarshal.
Variable w : World.

(** X10: linked against Go's [text/scanner], whose [TokenText] is
    empty after [Next], the list box never yields a name: for every
    handle and every page, [nickToNameFromListBox] makes its request and
    reports "Out of tokens", and it panics when the request fails. *)
Theorem list_box_never_matches (nick url : string) (s : State) :
  nickToNameFromListBox (lib := go) w nick url s
  = (noMatch (http_get w (List.length (requests s)) url), sent s url).
Proof.
  rewrite (surjective_pairing (nickToNameFromListBox (lib := go) w nick url s)).
  rewrite (proj1 (nickToNameFromListBox_frame (lib := go) w nick url s)).
  f_equal.
  unfold nickToNameFromListBox, bind. rewrite getWebPageTokenizer_run.
  destruct (http_get w (List.length (requests s)) url) as [msg|b e];
    cbn -[listBoxLoop]; [reflexivity|].
  pose proof (listBoxLoop_terminates (lib := go) nick
                (S (GoScanner.unread (GoScanner.Init b))) (GoScanner.Init b)
                (Nat.lt_succ_diag_r _)) as Ht.
  destruct (goScanner_listBoxLoop lower unmarshal nick
              (S (GoScanner.unread (GoScanner.Init b)))
              (GoScanner.Init b)) as [H|H]; [now elim Ht | exact H].
Qed.

(** X11: linked against Go's [text/scanner], the label scan never
    yields an address: for every name and every page,
    [nameToEmailWithUrl] makes its request and reports "Out of tokens",
    and it panics when the request fails. *)
Theorem label_scan_never_matches (fullname url : string) (s : State) :
  nameToEmailWithUrl (lib := go) w fullname url s
  = (noMatch (http_get w (List.length (requests s)) url), sent s url).
Proof.
  rewrite (surjective_pairing (nameToEmailWithUrl (lib := go) w fullname url s)).
  rewrite (proj1 (nameToEmailWithUrl_frame (lib := go) w fullname url s)).
  f_equal.
  unfold nameToEmailWithUrl, bind. rewrite getWebPageTokenizer_run.
  destruct (http_get w (List.length (requests s)) url) as [msg|b e];
    cbn -[emailLoop]; [reflexivity|].
  pose proof (emailLoop_terminates (lib := go) fullname
                (S (GoScanner.unread (GoScanner.Init b))) (GoScanner.Init b)
                (Nat.lt_succ_diag_r _)) as Ht.
  destruct (goScanner_emailLoop lower unmarshal fullname
              (S (GoScanner.unread (GoScanner.Init b)))
              (GoScanner.Init b)) as [H|H]; [now elim Ht | exact H].
Qed.

End GoScannerProperties.

(** ** Further properties: the resolver *)

Section ResolverProperties.
Context {lib : Library}.
Variable w : World.

Lemma cached_is_lookup (s : State) (k : string) :
  cached s k = default ∅ (nickCache s) !! k.
Proof.
  unfold cached. destruct (nickCache s); [reflexivity|].
  cbn. now rewrite lookup_empty.
Qed.

(** X12: a call of the resolver writes nothing to standard output,
    changes the cache at most at the handle it was asked, never changes or
    drops an entry, and only adds to the list of requests; on a cache hit
    it makes no request. *)
Theorem resolve_frame (nick : string) (s s' : State) (r : result string) :
  nickToNameAndEmail w nick s = (r, s') ->
  stdout s' = stdout s /\
  (forall k : string, k <> nick -> cached s' k = cached s k) /\
  (forall k v : string, cached s k = Some v -> cached s' k = Some v) /\
  exists urls : list string,
    requests s' = (requests s ++ urls)%list /\
    (cached s nick <> None -> urls = []).
Proof.
  intros Hrun.
  destruct (cached s nick) as [v|] eqn:Hn.
  - rewrite (resolve_hit w nick v s Hn) in Hrun. injection Hrun as _ <-.
    repeat split; auto. exists []. now rewrite app_nil_r.
  - destruct (resolve_miss w nick s Hn) as (r0 & urls & E & _ & _).
    rewrite E in Hrun. injection Hrun as _ <-.
    split; [reflexivity|]. split; [|split].
    + intros k Hk. rewrite cached_after, cached_is_lookup.
      destruct r0; try reflexivity. now rewrite lookup_insert_ne.
    + intros k v Hk. rewrite cached_after.
      assert (nick <> k) as Hne by (intros ->; congruence).
      rewrite cached_is_lookup in Hk.
      destruct r0; try exact Hk. now rewrite lookup_insert_ne.
    + exists urls. split; [reflexivity|]. intros H. now elim H.
Qed.

(** X13: with an empty cache entry, when the trusted-user page yields an
    identity the resolver returns it after that single request, and when
    it does not but the developer page does, after those two requests;
    the identity is cached. *)
Theorem first_source_wins (nick display : string) (s : State) :
  cached s nick = None ->
  (fst (nickToNameAndEmailWithUrl w nick TU_URL (made s)) = Val (display, None) ->
   nickToNameAndEmail w nick s
   = (Val display,
      after s (<[nick := display]> (default ∅ (nickCache s))) [TU_URL])) /\
  (forall x e : string,
     fst (nickToNameAndEmailWithUrl w nick TU_URL (made s)) = Val (x, Some e) ->
     fst (nickToNameAndEmailWithUrl w nick DEV_URL (sent (made s) TU_URL))
     = Val (display, None) ->
     nickToNameAndEmail w nick s
     = (Val display,
        after s (<[nick := display]> (default ∅ (nickCache s)))
          [TU_URL; DEV_URL])).
Proof.
  intros Hmiss.
  split.
  - intros HA. unfold nickToNameAndEmail, bind. rewrite makeCache_run.
    unfold lookupCache. fold (cached (made s) nick). rewrite made_cached, Hmiss.
    pose proof (nickToNameAndEmailWithUrl_frame w nick TU_URL (made s)) as [FA _].
    destruct (nickToNameAndEmailWithUrl w nick TU_URL (made s)) as [rA sA].
    cbn [fst snd] in *. subst. cbn [snd fst].
    unfold storeCache, ret, after, sent, made. cbn [nickCache stdout requests].
    reflexivity.
  - intros x e HA HB. unfold nickToNameAndEmail, bind. rewrite makeCache_run.
    unfold lookupCache. fold (cached (made s) nick). rewrite made_cached, Hmiss.
    pose proof (nickToNameAndEmailWithUrl_frame w nick TU_URL (made s)) as [FA _].
    destruct (nickToNameAndEmailWithUrl w nick TU_URL (made s)) as [rA sA].
    cbn [fst snd] in *. subst. cbn [snd fst].
    pose proof (nickToNameAndEmailWithUrl_frame w nick DEV_URL (sent (made s) TU_URL))
      as [FB _].
    destruct (nickToNameAndEmailWithUrl w nick DEV_URL _) as [rB sB].
    cbn [fst snd] in *. subst. cbn [snd fst].
    unfold storeCache, ret, after, sent, made. cbn [nickCache stdout requests].
    now rewrite <- app_assoc.
Qed.

Lemma nickToNameFromListBox_match (nick url display : string) (s s' : State) :
  nickToNameFromListBox w nick url s = (Val (display, None), s') ->
  nick = "option".
Proof.
  unfold nickToNameFromListBox, bind. rewrite getWebPageTokenizer_run.
  destruct (http_get w (List.length (requests s)) url) as [msg|b e];
    cbn -[listBoxLoop]; [discriminate|].
  unfold lift. intros H. apply (f_equal fst) in H. cbn [fst] in H.
  exact (listBox_matches_only_option nick _ _ display H).
Qed.

(** X14: for a handle other than "option" the label scan is never
    run: on a cache miss the requests are a beginning of trusted users,
    developers, packages, fellows, and never the second requests for the
    trusted-user and developer pages. *)
Theorem no_secondary_lookups (nick : string) (s : State) :
  nick <> "option" ->
  cached s nick = None ->
  exists urls rest : list string,
    requests (snd (nickToNameAndEmail w nick s)) = (requests s ++ urls)%list /\
    [TU_URL; DEV_URL; PKG_URL; FEL_URL] = (urls ++ rest)%list /\ urls <> [].
Proof.
  intros Hnick Hmiss.
  unfold nickToNameAndEmail, bind. rewrite makeCache_run.
  unfold lookupCache. fold (cached (made s) nick). rewrite made_cached, Hmiss.
  pose proof (nickToNameAndEmailWithUrl_frame w nick TU_URL (made s)) as [FA _].
  destruct (nickToNameAndEmailWithUrl w nick TU_URL (made s))
    as [[[xA [eA|]]| | |] sA]; cbn [fst snd] in *; subst;
    try (exists [TU_URL], [DEV_URL; PKG_URL; FEL_URL];
         unfold storeCache, ret, sent, made; cbn; repeat split; discriminate).
  pose proof (nickToNameAndEmailWithUrl_frame w nick DEV_URL (sent (made s) TU_URL))
    as [FB _].
  destruct (nickToNameAndEmailWithUrl w nick DEV_URL _)
    as [[[xB [eB|]]| | |] sB]; cbn [fst snd] in *; subst;
    try (exists [TU_URL; DEV_URL], [PKG_URL; FEL_URL];
         unfold storeCache, ret, sent, made; cbn; rewrite <- ?app_assoc;
         repeat split; discriminate).
  pose proof (nickToNameFromListBox_frame w nick PKG_URL
                (sent (sent (made s) TU_URL) DEV_URL)) as [FC _].
  destruct (nickToNameFromListBox w nick PKG_URL _)
    as [[[xC [eC|]]| | |] sC] eqn:EC; cbn [fst snd] in *; subst;
    try (exists [TU_URL; DEV_URL; PKG_URL], [FEL_URL];
         unfold storeCache, ret, sent, made; cbn; rewrite <- ?app_assoc;
         repeat split; discriminate).
  2: { exfalso. apply Hnick. exact (nickToNameFromListBox_match _ _ _ _ _ EC). }
  pose proof (nickToNameAndEmailWithUrl_frame w nick FEL_URL
                (sent (sent (sent (made s) TU_URL) DEV_URL) PKG_URL)) as [FD _].
  destruct (nickToNameAndEmailWithUrl w nick FEL_URL _)
    as [[[xD [eD|]]| | |] sD]; cbn [fst snd] in *; subst;
    exists [TU_URL; DEV_URL; PKG_URL; FEL_URL], [];
    unfold storeCache, ret, sent, made; cbn; rewrite <- ?app_assoc;
    repeat split; discriminate.
Qed.

Lemma primary_requests (nick : string) (s : State) :
  (forall (st : State) (display : string),
     fst (nickToNameFromListBox w nick PKG_URL st) <> Val (display, None)) ->
  cached s nick = None ->
  exists urls rest : list string,
    requests (snd (nickToNameAndEmail w nick s)) = (requests s ++ urls)%list /\
    [TU_URL; DEV_URL; PKG_URL; FEL_URL] = (urls ++ rest)%list /\ urls <> [].
Proof.
  intros Hnone Hmiss.
  unfold nickToNameAndEmail, bind. rewrite makeCache_run.
  unfold lookupCache. fold (cached (made s) nick). rewrite made_cached, Hmiss.
  pose proof (nickToNameAndEmailWithUrl_frame w nick TU_URL (made s)) as [FA _].
  destruct (nickToNameAndEmailWithUrl w nick TU_URL (made s))
    as [[[xA [eA|]]| | |] sA]; cbn [fst snd] in *; subst;
    try (exists [TU_URL], [DEV_URL; PKG_URL; FEL_URL];
         unfold storeCache, ret, sent, made; cbn; repeat split; discriminate).
  pose proof (nickToNameAndEmailWithUrl_frame w nick DEV_URL (sent (made s) TU_URL))
    as [FB _].
  destruct (nickToNameAndEmailWithUrl w nick DEV_URL _)
    as [[[xB [eB|]]| | |] sB]; cbn [fst snd] in *; subst;
    try (exists [TU_URL; DEV_URL], [PKG_URL; FEL_URL];
         unfold storeCache, ret, sent, made; cbn; rewrite <- ?app_assoc;
         repeat split; discriminate).
  pose proof (nickToNameFromListBox_frame w nick PKG_URL
                (sent (sent (made s) TU_URL) DEV_URL)) as [FC _].
  destruct (nickToNameFromListBox w nick PKG_URL _)
    as [[[xC [eC|]]| | |] sC] eqn:EC; cbn [fst snd] in *; subst;
    try (exists [TU_URL; DEV_URL; PKG_URL], [FEL_URL];
         unfold storeCache, ret, sent, made; cbn; rewrite <- ?app_assoc;
         repeat split; discriminate).
  2: { exfalso. exact (Hnone _ _ (f_equal fst EC)). }
  pose proof (nickToNameAndEmailWithUrl_frame w nick FEL_URL
                (sent (sent (sent (made s) TU_URL) DEV_URL) PKG_URL)) as [FD _].
  destruct (nickToNameAndEmailWithUrl w nick FEL_URL _)
    as [[[xD [eD|]]| | |] sD]; cbn [fst snd] in *; subst;
    exists [TU_URL; DEV_URL; PKG_URL; FEL_URL], [];
    unfold storeCache, ret, sent, made; cbn; rewrite <- ?app_assoc;
    repeat split; discriminate.
Qed.

End ResolverProperties.

Section GoResolver.
Variables (lower : Z -> Z) (unmarshal : string -> LogEntries * error).
Let go : Library := goLibrary lower unmarshal.
Variable w : World.

(** X23: linked against Go's [text/scanner], the resolver never gets
    a name from the list box, so for every handle a cache miss requests a
    non-empty beginning of trusted users, developers, packages, fellows:
    the lookups by full name are never run, and a request for the
    packages page that fails ends the call in a panic. *)
Theorem go_resolver_requests (nick : string) (s : State) :
  cached s nick = None ->
  (exists urls rest : list string,
     requests (snd (nickToNameAndEmail (lib := go) w nick s))
     = (requests s ++ urls)%list /\
     [TU_URL; DEV_URL; PKG_URL; FEL_URL] = (urls ++ rest)%list /\ urls <> []) /\
  (forall v : string,
     fst (nickToNameAndEmail (lib := go) w nick s) = Val v ->
     In (requests (snd (nickToNameAndEmail (lib := go) w nick s)))
        [(requests s ++ [TU_URL])%list; (requests s ++ [TU_URL; DEV_URL])%list;
         (requests s ++ [TU_URL; DEV_URL; PKG_URL; FEL_URL])%list]).
Proof.
  intros Hmiss.
  assert (forall (st : State) (display : string),
            fst (nickToNameFromListBox (lib := go) w nick PKG_URL st)
            <> Val (display, None)) as Hnone.
  { intros st display H.
    destruct (proj1 (goScanner_never_matches lower unmarshal w nick PKG_URL st))
      as [E|E]; unfold go in H; rewrite E in H; discriminate. }
  split; [exact (primary_requests (lib := go) w nick s Hnone Hmiss)|].
  intros v Hv.
  destruct (resolve_miss (lib := go) w nick s Hmiss) as (r & urls & E & _ & Hurls).
  destruct (primary_requests (lib := go) w nick s Hnone Hmiss)
    as (urls' & rest & Hreq & Hpre & _).
  rewrite E in Hv, Hreq |- *. cbn [fst snd after requests] in *. subst r.
  apply app_inv_head in Hreq. subst urls'.
  cbn [In] in Hurls.
  destruct Hurls as [<-|[<-|[<-|[<-|[<-|[]]]]]]; cbn [In]; auto;
    cbn [app] in Hpre; discriminate.
Qed.

End GoResolver.

(** ** Further properties: the changelog assembler *)

Module AssemblerSpec.
Import GoStrings Archlog.

(** The arguments [getSvnLogXMLbytes] gives to svn. *)
Definition svnArgs (entries : Z) : list string :=
  if entries =? -1
  then ["log"; "--xml"; "-r"; "HEAD:0"]
  else ["log"; "--xml"; "-r"; "HEAD:0"; "--limit"; formatInt entries].

(** The variables of [outputLog] before its loop. *)
Definition noGroup : Gather :=
  {| first := true; msgitems := []; prevdate := ""; prevname := "";
     prevheader := "" |}.

Definition blank (logentry : LogEntry) : bool :=
  eqs (TrimSpace (Msg logentry)) "".

(** The formatted messages of the entries that are not skipped, oldest
    entry of the list first. *)
Definition bullets (entries : list LogEntry) : list string :=
  List.map (fun e => formatMsg (TrimSpace (Msg e)))
           (List.filter (fun e => negb (blank e)) entries).

(** The variables of [outputLog] while the first group, of date [day]
    and author [name], has gathered [ms], and what was written by then. *)
Definition inGroup (day name : string) (ms : list string) : Gather :=
  match ms with
  | [] => noGroup
  | _ => {| first := true; msgitems := ms; prevdate := day; prevname := name;
            prevheader := day +:+ " " +:+ name |}
  end.

Definition groupHeader (day name : string) (ms : list string) : string :=
  match ms with
  | [] => ""
  | _ => day +:+ " " +:+ name +:+ LF
  end.

(** What [outputLog] writes for one group. *)
Definition groupText (day name : string) (ms : list string) : string :=
  match ms with
  | [] => ""
  | _ => day +:+ " " +:+ name +:+ LF +:+ lines (rev ms) +:+ LF
  end.

End AssemblerSpec.
Import AssemblerSpec.

Section AssemblerProperties.
Context {lib : Library}.
Variable w : World.

Lemma getSvnLog_run (n : Z) (s : State) :
  exists (entries : LogEntries) (text : string),
    getSvnLog w n s = (Val (entries, None), printed s text).
Proof.
  unfold getSvnLog.
  destruct (getSvnLogXMLbytes w n) as [xmlbytes err].
  destruct (xml_Unmarshal xmlbytes) as [result [e|]].
  - exists {| Entries := [] |}, ("error: " +:+ e). reflexivity.
  - exists result, "". unfold ret. now rewrite printed_nothing.
Qed.

Lemma outputEntry_panics (logentry : LogEntry) (g : Gather) (s s1 : State)
      (msg : string) :
  nickToNameAndEmail w (Author logentry) s = (Panicked msg, s1) ->
  outputEntry w logentry g s = (Panicked msg, s1).
Proof.
  intros H. destruct (prettyDate_returns (Date logentry)) as [day Hday].
  unfold outputEntry. rewrite Hday. unfold bind at 1. unfold lift.
  unfold bind at 1. now rewrite H.
Qed.

Lemma outputEntry_settles (logentry : LogEntry) (g : Gather) (s : State) :
  settled (fst (outputEntry w logentry g s)).
Proof.
  destruct (prettyDate_returns (Date logentry)) as [day Hday].
  pose proof (resolve_settles w (Author logentry) s) as Hs.
  destruct (nickToNameAndEmail w (Author logentry) s) as [[name|msg|code|] s1] eqn:E;
    cbn [fst settled] in Hs; try contradiction.
  - now rewrite (outputEntry_run w logentry g s s1 day name Hday E).
  - now rewrite (outputEntry_panics logentry g s s1 msg E).
Qed.

Lemma outputEntries_settles (entries : list LogEntry) (g : Gather) (s : State) :
  settled (fst (outputEntries w entries g s)).
Proof.
  revert g s; induction entries as [|e rest IH]; intros g s; [exact I|].
  cbn [outputEntries]. unfold bind.
  pose proof (outputEntry_settles e g s) as Hs.
  destruct (outputEntry w e g s) as [[g'|msg|code|] s1];
    cbn [fst settled] in Hs; try contradiction; [apply IH | exact I].
Qed.

Lemma outputLog_settles (n : Z) (s : State) : settled (fst (outputLog w n s)).
Proof.
  destruct (makeStrings_cases w (abs n)) as [Hmade|[msg Hmade]];
    [|now rewrite (outputLog_not_made w n s msg Hmade)].
  rewrite (outputLog_made w n s Hmade). unfold bind at 1.
  destruct (getSvnLog_run n s) as (entries & text & ->). cbn [snd fst].
  unfold bind.
  pose proof (outputEntries_settles (Entries entries) noGroup (printed s text)) as Hs.
  fold noGroup.
  destruct (outputEntries w (Entries entries) noGroup (printed s text))
    as [[g|msg|code|] s1]; cbn [fst settled] in Hs; try contradiction; [|exact I].
  destruct (0 <? Z.of_nat (List.length (msgitems g))); [|exact I].
  rewrite printAll_run. exact I.
Qed.

Lemma outputLog_status (n : Z) (s : State) :
  exitStatus (fst (outputLog w n s)) <> Some 1.
Proof.
  pose proof (outputLog_settles n s) as Hs.
  destruct (fst (outputLog w n s)); cbn in *; try contradiction; discriminate.
Qed.

(** X15: [getSvnLog] returns a nil error whatever svn and the XML
    decoder do, so [outputLog] never takes its [os.Exit(1)] branch: a call
    of [outputLog] returns or panics, and neither ends the process with a
    status of its own nor runs for ever. *)
Theorem outputLog_never_exits (n : Z) (s : State) :
  (exists (entries : LogEntries) (text : string),
     getSvnLog w n s = (Val (entries, None), printed s text)) /\
  settled (fst (outputLog w n s)) /\
  exitStatus (fst (outputLog w n s)) <> Some 1.
Proof.
  split; [apply getSvnLog_run|].
  split; [apply outputLog_settles | apply outputLog_status].
Qed.

(** X24: [outputLog] makes its slice of capacity [abs n] before
    anything else: when [abs n] string headers take more than [maxAlloc]
    bytes, or [abs n] is negative, the call panics with "makeslice: cap
    out of range" before svn is run; nothing is printed or requested and
    the process ends with status 2. *)
Theorem huge_count_panics (n : Z) (s : State) :
  maxAlloc < stringSize * abs n \/ abs n < 0 ->
  outputLog w n s = (Panicked cap_out_of_range, s) /\
  exitStatus (fst (outputLog w n s)) = Some 2.
Proof.
  intros H.
  assert (makeStrings w (abs n) = Panicked cap_out_of_range) as Hmade.
  { unfold makeStrings.
    assert ((abs n <? 0) || (maxAlloc <? stringSize * abs n) = true) as ->;
      [|reflexivity].
    apply orb_true_iff. destruct H as [H|H]; [right | left]; now apply Z.ltb_lt. }
  rewrite (outputLog_not_made w n s _ Hmade). split; reflexivity.
Qed.

Lemma getSvnLogXMLbytes_args (n : Z) :
  getSvnLogXMLbytes w n
  = match snd (svn w (svnArgs n)) with
    | Some e => ("", Some e)
    | None => (fst (svn w (svnArgs n)), None)
    end.
Proof.
  unfold getSvnLogXMLbytes, svnArgs.
  destruct (n =? -1); destruct (svn w _) as [b [e|]]; reflexivity.
Qed.

(** X16: when svn is run (the slice of [outputLog] was made) and
    fails, its error and its output are dropped: the XML decoder is run on
    the empty text, and when that fails with [e'] the program prints
    "error: e'" to standard output and returns, with exit status 0, after
    no request.  The limit is passed to svn exactly when the number of
    entries is not -1. *)
Theorem svn_failure_is_not_reported (n : Z) (s : State) (out e e' : string)
        (partial : LogEntries) :
  roomFor w n = true ->
  svn w (svnArgs n) = (out, Some e) ->
  xml_Unmarshal "" = (partial, Some e') ->
  getSvnLogXMLbytes w n = ("", Some e) /\
  outputLog w n s = (Val tt, printed s ("error: " +:+ e')) /\
  exitStatus (fst (outputLog w n s)) = Some 0 /\
  (In "--limit" (svnArgs n) <-> n <> -1).
Proof.
  intros Hroom Hsvn Hxml.
  assert (getSvnLogXMLbytes w n = ("", Some e)) as Hb.
  { rewrite getSvnLogXMLbytes_args, Hsvn. reflexivity. }
  assert (outputLog w n s = (Val tt, printed s ("error: " +:+ e'))) as Ho.
  { rewrite (outputLog_made w n s (makeStrings_room w n Hroom)).
    unfold getSvnLog. rewrite Hb, Hxml. reflexivity. }
  split; [exact Hb|]. split; [exact Ho|]. split; [now rewrite Ho|].
  unfold svnArgs. destruct (Z.eqb_spec n (-1)) as [->|Hn].
  - split; [|intros H; now elim H].
    cbn [In]. intros [H|[H|[H|[H|[]]]]]; discriminate.
  - split; [intros _; exact Hn|]. intros _. cbn [In]. auto 10.
Qed.

Lemma resolve_keeps_stdout (nick : string) (s : State) :
  stdout (snd (nickToNameAndEmail w nick s)) = stdout s.
Proof.
  destruct (cached s nick) as [v|] eqn:Hn.
  - now rewrite (resolve_hit w nick v s Hn).
  - destruct (resolve_miss w nick s Hn) as (r0 & urls & E & _ & _).
    now rewrite E.
Qed.

Lemma blank_rounds (entries : list LogEntry) (g : Gather) (s : State) :
  forallb blank entries = true ->
  stdout (snd (outputEntries w entries g s)) = stdout s /\
  (fst (outputEntries w entries g s) = Val g \/
   exists msg, fst (outputEntries w entries g s) = Panicked msg).
Proof.
  revert s; induction entries as [|e rest IH]; intros s Hall.
  - split; [reflexivity | now left].
  - cbn [forallb] in Hall. apply andb_prop in Hall as [He Hrest].
    cbn [outputEntries]. unfold bind.
    destruct (prettyDate_returns (Date e)) as [day Hday].
    pose proof (resolve_settles w (Author e) s) as Hs.
    pose proof (resolve_keeps_stdout (Author e) s) as Hout.
    destruct (nickToNameAndEmail w (Author e) s) as [[name|msg|code|] s1] eqn:E;
      cbn [fst snd settled] in Hs, Hout; try contradiction.
    + rewrite (outputEntry_run w e g s s1 day name Hday E).
      unfold roundGather, roundOutput. unfold blank in He. rewrite He.
      rewrite printed_nothing. destruct (IH s1 Hrest) as [H1 H2].
      split; [now rewrite H1 | exact H2].
    + rewrite (outputEntry_panics e g s s1 msg E). cbn [fst snd].
      split; [exact Hout | right; now exists msg].
Qed.

Lemma outputLog_run (n : Z) (s : State) (entries : list LogEntry) :
  makeStrings w (abs n) = Val tt ->
  xml_Unmarshal (fst (getSvnLogXMLbytes w n)) = ({| Entries := entries |}, None) ->
  outputLog w n s
  = match outputEntries w entries noGroup s with
    | (Val g, s1) =>
      if 0 <? Z.of_nat (List.length (msgitems g))
      then (Val tt, printed s1 (lines (rev (msgitems g)) +:+ LF))
      else (Val tt, s1)
    | (Panicked msg, s1) => (Panicked msg, s1)
    | (Exited code, s1) => (Exited code, s1)
    | (OutOfFuel, s1) => (OutOfFuel, s1)
    end.
Proof.
  intros Hmade Hxml. rewrite (outputLog_made w n s Hmade). unfold getSvnLog.
  destruct (getSvnLogXMLbytes w n) as [xmlbytes err]. cbn [fst] in Hxml.
  rewrite Hxml. unfold bind at 1. unfold ret at 1. cbn [snd fst Entries].
  unfold bind at 1. fold noGroup.
  destruct (outputEntries w entries noGroup s) as [[g|msg|code|] s1]; try reflexivity.
  destruct (0 <? Z.of_nat (List.length (msgitems g))); [|reflexivity].
  unfold bind. rewrite printAll_run, Println_run, printed_printed, reversed_rev.
  reflexivity.
Qed.

(** X17: a log in which every message is empty after trimming, and
    so an empty log too, makes [outputLog] write nothing to standard
    output, not even a closing empty line; the call returns, or panics
    (when the slice cannot be made, or in the resolver). *)
Theorem blank_log_prints_nothing (n : Z) (s : State) (entries : list LogEntry) :
  xml_Unmarshal (fst (getSvnLogXMLbytes w n)) = ({| Entries := entries |}, None) ->
  forallb blank entries = true ->
  stdout (snd (outputLog w n s)) = stdout s /\
  (fst (outputLog w n s) = Val tt \/
   exists msg, fst (outputLog w n s) = Panicked msg).
Proof.
  intros Hxml Hall.
  destruct (makeStrings_cases w (abs n)) as [Hmade|[msg Hmade]].
  2: { rewrite (outputLog_not_made w n s msg Hmade). cbn [fst snd].
       split; [reflexivity | right; now exists msg]. }
  rewrite (outputLog_run n s entries Hmade Hxml).
  destruct (blank_rounds entries noGroup s Hall) as [Hout Hres].
  destruct (outputEntries w entries noGroup s) as [r s1]. cbn [fst snd] in *.
  destruct Hres as [->|[msg ->]].
  - cbn [noGroup msgitems List.length Z.of_nat Z.ltb Z.compare fst snd].
    split; [exact Hout | now left].
  - cbn [fst snd]. split; [exact Hout | right; now exists msg].
Qed.

(** X18: an entry whose message is empty after trimming is skipped
    only after its author was resolved: the round leaves the gathered
    messages and the output as they were, but the author's identity is in
    the cache afterwards, and when it was not there before at least one
    page was requested for it. *)
Theorem skipped_entry_is_still_resolved (logentry : LogEntry) (g : Gather)
        (s s1 : State) (name : string) :
  blank logentry = true ->
  nickToNameAndEmail w (Author logentry) s = (Val name, s1) ->
  outputEntry w logentry g s = (Val g, s1) /\
  stdout s1 = stdout s /\
  cached s1 (Author logentry) = Some name /\
  (cached s (Author logentry) = None ->
   exists url urls, requests s1 = (requests s ++ url :: urls)%list).
Proof.
  intros Hblank Hname.
  destruct (prettyDate_returns (Date logentry)) as [day Hday].
  split; [|split; [|split]].
  - rewrite (outputEntry_run w logentry g s s1 day name Hday Hname).
    unfold roundGather, roundOutput. unfold blank in Hblank. rewrite Hblank.
    now rewrite printed_nothing.
  - pose proof (resolve_keeps_stdout (Author logentry) s) as H.
    now rewrite Hname in H.
  - exact (returned_is_cached w _ _ _ _ Hname).
  - intros Hmiss.
    destruct (resolve_miss w (Author logentry) s Hmiss) as (r0 & urls & E & _ & Hurls).
    rewrite E in Hname. injection Hname as -> <-.
    cbn [In] in Hurls.
    destruct Hurls as [<-|[<-|[<-|[<-|[<-|[]]]]]]; eexists; eexists; reflexivity.
Qed.

Lemma header_not_empty (day name : string) : eqs (day +:+ " " +:+ name) "" = false.
Proof. now destruct day. Qed.

Lemma round_in_group (day name : string) (logentry : LogEntry) (ms : list string) :
  roundGather day name (TrimSpace (Msg logentry)) (inGroup day name ms)
  = inGroup day name (ms ++ bullets [logentry]) /\
  groupHeader day name ms
  +:+ roundOutput day name (TrimSpace (Msg logentry)) (inGroup day name ms)
  = groupHeader day name (ms ++ bullets [logentry]).
Proof.
  unfold roundGather, roundOutput, bullets, blank. cbn [List.filter].
  destruct (eqs (TrimSpace (Msg logentry)) "") eqn:Eb; cbn [negb List.map].
  - rewrite app_nil_r, append_empty_r. split; reflexivity.
  - destruct ms as [|m ms].
    + unfold flushes, inGroup, noGroup, groupHeader.
      cbn [prevdate prevname msgitems first prevheader app List.length].
      rewrite andb_false_r. cbn [app].
      rewrite header_not_empty. split; reflexivity.
    + unfold flushes, inGroup, groupHeader.
      cbn [prevdate prevname msgitems first prevheader].
      unfold eqs. rewrite !String.eqb_refl. cbn [negb orb andb].
      rewrite append_empty_r. split; reflexivity.
Qed.

Lemma bullets_cons (logentry : LogEntry) (rest : list LogEntry) :
  bullets (logentry :: rest) = (bullets [logentry] ++ bullets rest)%list.
Proof.
  unfold bullets. cbn [List.filter].
  destruct (negb (blank logentry)); reflexivity.
Qed.

Lemma group_rounds (day name author : string) (s1 : State) (entries : list LogEntry) :
  cached s1 author = Some name ->
  Forall (fun e => prettyDate (Date e) = Val day /\ Author e = author) entries ->
  forall ms : list string,
    outputEntries w entries (inGroup day name ms)
      (printed s1 (groupHeader day name ms))
    = (Val (inGroup day name (ms ++ bullets entries)),
       printed s1 (groupHeader day name (ms ++ bullets entries))).
Proof.
  intros Hcached Hall. induction Hall as [|e rest [Hday Hauthor] _ IH]; intros ms.
  - cbn [outputEntries]. unfold bullets. cbn. now rewrite app_nil_r.
  - destruct (round_in_group day name e ms) as [HG HO].
    rewrite (outputEntries_cons w e rest _ (inGroup day name (ms ++ bullets [e]))
               _ (printed s1 (groupHeader day name (ms ++ bullets [e])))).
    + rewrite IH, (bullets_cons e rest), app_assoc. reflexivity.
    + rewrite (outputEntry_run w e _ _ (printed s1 (groupHeader day name ms))
                 day name Hday).
      * now rewrite HG, printed_printed, HO.
      * rewrite Hauthor. apply resolve_hit. exact Hcached.
Qed.

(** X19: when the slice of [outputLog] was made, all entries of the
    log have the same day and the same author, and the author resolves to
    [name], [outputLog] writes one
    header "day name", then the messages that are not empty, each
    formatted, the newest entry of the log order last, and one closing
    empty line; when every message is empty it writes nothing.  The author
    is resolved by the first entry, and no later round adds a request. *)
Theorem one_group_one_header (n : Z) (s s1 : State) (day name : string)
        (logentry : LogEntry) (rest : list LogEntry) :
  roomFor w n = true ->
  xml_Unmarshal (fst (getSvnLogXMLbytes w n))
  = ({| Entries := logentry :: rest |}, None) ->
  Forall (fun e => prettyDate (Date e) = Val day /\ Author e = Author logentry)
         (logentry :: rest) ->
  nickToNameAndEmail w (Author logentry) s = (Val name, s1) ->
  outputLog w n s
  = (Val tt, printed s1 (groupText day name (bullets (logentry :: rest)))).
Proof.
  intros Hroom Hxml Hall Hname.
  pose proof (returned_is_cached w _ _ _ _ Hname) as Hcached.
  assert (outputEntries w (logentry :: rest) noGroup s
          = (Val (inGroup day name (bullets (logentry :: rest))),
             printed s1 (groupHeader day name (bullets (logentry :: rest))))) as Hloop.
  { inversion Hall as [|? ? [Hday _] Hrest]; subst.
    destruct (round_in_group day name logentry []) as [HG HO].
    cbn [app] in HG, HO.
    rewrite (outputEntries_cons w logentry rest _
               (inGroup day name (bullets [logentry]))
               _ (printed s1 (groupHeader day name (bullets [logentry])))).
    - rewrite (group_rounds day name (Author logentry) s1 rest Hcached Hrest).
      now rewrite (bullets_cons logentry rest).
    - rewrite (outputEntry_run w logentry _ s s1 day name Hday Hname).
      change (inGroup day name []) with noGroup in HG, HO. rewrite HG.
      change (groupHeader day name []) with "" in HO.
      change ("" +:+ ?x) with x in HO. now rewrite HO. }
  rewrite (outputLog_run n s _ (makeStrings_room w n Hroom) Hxml), Hloop.
  destruct (bullets (logentry :: rest)) as [|m ms].
  - reflexivity.
  - unfold inGroup, groupHeader, groupText.
    cbn [msgitems List.length]. rewrite Nat2Z.inj_succ.
    assert ((0 <? Z.succ (Z.of_nat (List.length ms))) = true) as ->
      by (apply Z.ltb_lt; lia).
    rewrite printed_printed, !append_assoc. reflexivity.
Qed.

End AssemblerProperties.

(** ** Further properties: the formatting of a message *)

Module FormatSpec.
Import GoStrings Archlog.

(** Every newline of [s] is followed by six spaces. *)
Fixpoint indented (s : string) : bool :=
  match s with
  | EmptyString => true
  | String c rest =>
    (if Ascii.eqb c "010" then String.prefix "      " rest else true)
    && indented rest
  end.

(** The message with its only blank line removed, as [outputLog] does
    before it indents. *)
Definition collapsed (msg : string) : string :=
  if Count msg (LF +:+ LF) =? 1 then Replace msg (LF +:+ LF) LF 1 else msg.

End FormatSpec.
Import FormatSpec.

Lemma Replace_leadStar (o new s : string) (n : Z) :
  n <> 0 ->
  Replace (leadStar +:+ s) (String "010" o) new n
  = leadStar +:+ Replace s (String "010" o) new n.
Proof.
  intros Hn. unfold Replace, leadStar.
  change ("    * " +:+ s)
    with (String " " (String " " (String " " (String " " (String "*" (String " " s)))))).
  apply Z.eqb_neq in Hn.
  cbn [Replace_aux]. rewrite Hn. reflexivity.
Qed.

Lemma Count_leadStar (o s : string) :
  Count_aux (leadStar +:+ s) (String "010" o) 0 = Count_aux s (String "010" o) 0.
Proof. reflexivity. Qed.

Lemma indented_spaces (s : string) :
  indented ("      " +:+ s) = indented s.
Proof. reflexivity. Qed.

Lemma prefix_spaces (s : string) : String.prefix "      " ("      " +:+ s) = true.
Proof. now destruct s. Qed.

Lemma Replace_indents (s : string) (n : Z) :
  n < 0 -> indented (Replace_aux s LF (LF +:+ "      ") 0 n) = true.
Proof.
  revert n; induction s as [|c s IH]; intros n Hn; [reflexivity|].
  cbn [Replace_aux].
  assert ((n =? 0) = false) as -> by (apply Z.eqb_neq; lia).
  unfold LF at 1. rewrite prefix_char.
  destruct (Ascii.eqb_spec "010" c) as [<-|Hc].
  - change (String.length LF - 1)%nat with 0%nat.
    change ((LF +:+ "      ") +:+ ?x) with (String "010" ("      " +:+ x)).
    cbn [indented]. rewrite Ascii.eqb_refl, prefix_spaces, indented_spaces.
    apply IH. lia.
  - cbn [indented]. rewrite Ascii.eqb_sym.
    destruct (Ascii.eqb_spec "010" c) as [E|_]; [now elim Hc|].
    apply IH. exact Hn.
Qed.

Lemma Replace_no_char (c : ascii) (new s : string) (n : Z) :
  count_char c s = 0%nat -> Replace_aux s (String c "") new 0 n = s.
Proof.
  induction s as [|d s IH]; intros H; [reflexivity|].
  cbn [Replace_aux]. destruct (n =? 0); [reflexivity|].
  rewrite prefix_char. cbn [count_char] in H.
  destruct (Ascii.eqb c d); [discriminate|]. now rewrite IH.
Qed.

Lemma no_char_no_pair (s : string) :
  count_char "010" s = 0%nat -> Count_aux s (LF +:+ LF) 0 = 0.
Proof.
  induction s as [|d s IH]; intros H; [reflexivity|].
  cbn [Count_aux]. rewrite prefix_pair.
  cbn [count_char] in H.
  destruct (Ascii.eqb_spec "010" d) as [E|Hd]; [discriminate|].
  unfold headPair. destruct (Ascii.eqb_spec d "010") as [E|_]; [now elim Hd|].
  cbn [andb]. destruct s; now apply IH.
Qed.

(** X20: the bullet does not take part in the rewriting of a
    message: the formatted message is the bullet of four spaces, a star
    and a space, followed by the message with its only blank line removed
    and its newlines indented; every newline of the result is followed by
    six spaces, and a message of one line is left as it is after the
    bullet. *)
Theorem formatMsg_shape (msg : string) :
  formatMsg msg
  = leadStar +:+ Replace (collapsed msg) LF (LF +:+ "      ") (-1) /\
  indented (formatMsg msg) = true /\
  (count_char "010" msg = 0%nat -> formatMsg msg = leadStar +:+ msg).
Proof.
  assert (formatMsg msg
          = leadStar +:+ Replace (collapsed msg) LF (LF +:+ "      ") (-1)) as E.
  { unfold formatMsg, collapsed.
    change (Count (leadStar +:+ msg) (LF +:+ LF))
      with (Count_aux (leadStar +:+ msg) (String "010" LF) 0).
    change (Count msg (LF +:+ LF)) with (Count_aux msg (String "010" LF) 0).
    rewrite Count_leadStar.
    destruct (Count_aux msg (String "010" LF) 0 =? 1).
    - change (LF +:+ LF) with (String "010" LF).
      rewrite Replace_leadStar by discriminate.
      unfold LF at 3 7. now rewrite Replace_leadStar by discriminate.
    - unfold LF at 1 4. now rewrite Replace_leadStar by discriminate. }
  split; [exact E|]. split.
  - rewrite E. unfold leadStar.
    change (indented (Replace (collapsed msg) LF (LF +:+ "      ") (-1)) = true).
    apply Replace_indents. lia.
  - intros Hone. rewrite E. unfold collapsed, Count.
    change (LF +:+ LF) with (String "010" LF) at 1. cbv iota.
    change (String "010" LF) with (LF +:+ LF).
    rewrite (no_char_no_pair msg Hone). cbn [Z.eqb].
    unfold Replace, LF at 1. now rewrite Replace_no_char.
Qed.

Lemma formatMsg_shape_witness :
  formatMsg "fix typo" = "    * fix typo".
Proof. exact (proj2 (proj2 (formatMsg_shape "fix typo")) eq_refl). Defined.

(** ** Further properties: [abs] and [main] *)

Module MainProgram.
Import GoStrings Archlog.





Section Main.
Context {lib : Library}.
Variable w : World.
(** [strconv.Atoi]. *)
Variable Atoi : string -> Z * error.


End Main.

End MainProgram.
Import MainProgram.

(** X21: on a 64-bit platform [abs] is the absolute value for every
    [int] but the least one, which it returns unchanged: the result is
    negative for that input only. *)
Theorem abs_least_int (x : Z) :
  minInt <= x <= maxInt ->
  (x <> minInt -> abs x = Z.abs x /\ 0 <= abs x <= maxInt) /\
  (x = minInt -> abs x = minInt).
Proof.
  unfold abs, wrap, minInt, maxInt. intros Hx.
  destruct (Z.leb_spec 0 x) as [H|H].
  - split; intros Hm; [|lia]. rewrite Z.abs_eq by lia. lia.
  - split; intros Hm.
    + rewrite Z.mod_small by lia. lia.
    + subst x. reflexivity.
Qed.

Lemma abs_least_int_witness : abs (-1) = Z.abs (-1) /\ 0 <= abs (-1) <= maxInt.
Proof.
  apply (proj1 (abs_least_int (-1) ltac:(unfold minInt, maxInt; lia))).
  discriminate.
Defined.

Section MainProperties.
Context {lib : Library}.
Variable w : World.
Variable Atoi : string -> Z * error.




End MainProperties.

(** ** Sample runs of the further properties *)

Module MoreSamples.
Import GoStrings Archlog.

(** svn fails, as it does outside a working copy. *)
Definition svnDown : World :=
  {| http_get := fun _ _ => Page "" None;
     svn := fun _ => ("svn: E155007", Some "exit status 1");
     memory := 2 ^ 20 |}.

(** Three entries of one day and one author; the message of the second
    is white space only. *)
Definition morning : LogEntry :=
  {| Revision := "3"; Author := "alice"; Date := "2024-01-01T11:30:00.000000Z";
     Msg := "second" +:+ LF |}.
Definition spaces : LogEntry :=
  {| Revision := "2"; Author := "alice"; Date := "2024-01-01T10:45:00.000000Z";
     Msg := LF +:+ "  " +:+ LF |}.
Definition early : LogEntry :=
  {| Revision := "1"; Author := "alice"; Date := "2024-01-01T10:00:00.000000Z";
     Msg := "first" +:+ LF |}.

Definition oneDayLibrary : Library :=
  goLibrary (fun r => r) (fun _ => ({| Entries := [morning; spaces; early] |}, None)).

Definition spacesLibrary : Library :=
  goLibrary (fun r => r) (fun _ => ({| Entries := [spaces] |}, None)).


End MoreSamples.
Import MoreSamples.

Lemma resolve_frame_witness :
  stdout (snd (nickToNameAndEmail (lib := plainLibrary) emptyPages "alice" start))
  = stdout start.
Proof.
  exact (proj1 (resolve_frame (lib := plainLibrary) emptyPages "alice" start
                  (snd (nickToNameAndEmail (lib := plainLibrary) emptyPages
                          "alice" start))
                  (fst (nickToNameAndEmail (lib := plainLibrary) emptyPages
                          "alice" start))
                  (surjective_pairing _))).
Defined.

Lemma first_source_wins_witness :
  nickToNameAndEmail (lib := plainLibrary) onePerson "jdoe" start
  = (Val "Jane Doe <jane@example>",
     after start (<[ "jdoe" := "Jane Doe <jane@example>" ]> ∅) [TU_URL]).
Proof.
  exact (proj1 (first_source_wins (lib := plainLibrary) onePerson "jdoe"
                  "Jane Doe <jane@example>" start eq_refl) eq_refl).
Defined.

Lemma no_secondary_lookups_witness :
  exists urls rest : list string,
    requests (snd (nickToNameAndEmail (lib := plainLibrary) emptyPages "alice" start))
    = (requests start ++ urls)%list /\
    [TU_URL; DEV_URL; PKG_URL; FEL_URL] = (urls ++ rest)%list /\ urls <> [].
Proof.
  apply (no_secondary_lookups (lib := plainLibrary) emptyPages "alice" start);
    [discriminate | reflexivity].
Defined.

Lemma go_resolver_requests_witness :
  exists urls rest : list string,
    requests (snd (nickToNameAndEmail (lib := plainLibrary) emptyPages "option" start))
    = (requests start ++ urls)%list /\
    [TU_URL; DEV_URL; PKG_URL; FEL_URL] = (urls ++ rest)%list /\ urls <> [].
Proof.
  exact (proj1 (go_resolver_requests (fun r => r)
                  (fun _ => ({| Entries := [] |}, Some "EOF"))
                  emptyPages "option" start eq_refl)).
Defined.

Lemma huge_count_panics_witness :
  outputLog (lib := plainLibrary) emptyPages maxInt start
  = (Panicked cap_out_of_range, start).
Proof.
  apply (huge_count_panics (lib := plainLibrary) emptyPages maxInt start).
  left. vm_compute. reflexivity.
Defined.

Lemma svn_failure_is_not_reported_witness :
  outputLog (lib := plainLibrary) svnDown 3 start
  = (Val tt, printed start "error: EOF").
Proof.
  exact (proj1 (proj2 (svn_failure_is_not_reported (lib := plainLibrary) svnDown 3
                         start "svn: E155007" "exit status 1" "EOF"
                         {| Entries := [] |} eq_refl eq_refl eq_refl))).
Defined.

Lemma blank_log_prints_nothing_witness :
  stdout (snd (outputLog (lib := spacesLibrary) emptyPages 3 start)) = stdout start.
Proof.
  exact (proj1 (blank_log_prints_nothing (lib := spacesLibrary) emptyPages 3 start
                  [spaces] eq_refl eq_refl)).
Defined.

Lemma skipped_entry_is_still_resolved_witness :
  cached (snd (nickToNameAndEmail (lib := plainLibrary) emptyPages "alice" start))
         "alice"
  = Some "alice".
Proof.
  exact (proj1 (proj2 (proj2
    (skipped_entry_is_still_resolved (lib := plainLibrary) emptyPages spaces noGroup
       start
       (snd (nickToNameAndEmail (lib := plainLibrary) emptyPages "alice" start))
       "alice" eq_refl
       ltac:(vm_compute; reflexivity))))).
Defined.

Lemma one_group_one_header_witness :
  stdout (snd (outputLog (lib := oneDayLibrary) emptyPages 3 start))
  = "2024-01-01 alice" +:+ LF +:+ "    * first" +:+ LF +:+ "    * second" +:+ LF
    +:+ LF.
Proof.
  pose (s1 := snd (nickToNameAndEmail (lib := oneDayLibrary) emptyPages
                     "alice" start)).
  assert (nickToNameAndEmail (lib := oneDayLibrary) emptyPages "alice" start
          = (Val "alice", s1)) as Ha by (vm_compute; reflexivity).
  rewrite (one_group_one_header (lib := oneDayLibrary) emptyPages 3 start s1
             "2024-01-01" "alice" morning [spaces; early] eq_refl eq_refl
             ltac:(repeat constructor) Ha).
  reflexivity.
Defined.

